(** * aflpp_driver: the libFuzzer-style persistent-mode driver of AFL++

    A shallow embedding of [examples/aflpp_driver/aflpp_driver.c].  The
    driver is glue code: almost every line is a call into libc, the kernel
    or the AFL++ runtime.  The embedding therefore runs the driver against
    a [world], a record of oracles fixing what each external call answers,
    and returns the ordered list of external calls made ([events]), the
    final values of the driver's globals and of the process resources it
    touches ([state]), and how the run ended ([result]). *)

From Stdlib Require Import ZArith Lia Ascii String.
From Stdlib.Strings Require Import Byte.
From stdpp Require Import base option list strings gmap.

Open Scope string_scope.
Open Scope list_scope.
Open Scope Z_scope.

(** ** C integers *)

Definition INT_MAX : Z := 2147483647.
Definition INT_MIN : Z := -2147483648.
Definition LONG_MAX : Z := 9223372036854775807.
Definition LONG_MIN : Z := -9223372036854775808.

(** Conversion of a wider integer to [int]: reduction modulo 2^32 into
    the signed range. *)
Definition to_int (z : Z) : Z := (z + 2147483648) mod 4294967296 - 2147483648.

(** [(uint64_t)p]: a pointer seen as an unsigned 64-bit integer. *)
Definition to_uint64 (z : Z) : Z := z mod 18446744073709551616.

(** [MAP_FAILED] is [(void * )-1]. *)
Definition MAP_FAILED : Z := 18446744073709551615.
Definition NULL : Z := 0.

(** ** libc: [atoi]

    [atoi(s)] is [(int) strtol(s, NULL, 10)]: leading white space is
    skipped, one optional sign is read, then the longest run of decimal
    digits; [strtol] saturates at [LONG_MIN]/[LONG_MAX] and the cast keeps
    the low 32 bits.  Inside the [int] range this is the value ISO C
    prescribes; outside it the C standard leaves [atoi] undefined and the
    model follows glibc on LP64. *)

Definition isspace (c : ascii) : bool :=
  let n := Z.of_nat (nat_of_ascii c) in
  (n =? 32) || ((9 <=? n) && (n <=? 13)).

Definition digit_of (c : ascii) : option Z :=
  let n := Z.of_nat (nat_of_ascii c) in
  if (48 <=? n) && (n <=? 57) then Some (n - 48) else None.

Fixpoint skip_spaces (s : string) : string :=
  match s with
  | String c s' => if isspace c then skip_spaces s' else s
  | EmptyString => s
  end.

(** The digit loop: [acc = acc * 10 + digit] until the first non-digit. *)
Fixpoint read_digits (s : string) (acc : Z) : Z :=
  match s with
  | String c s' =>
      match digit_of c with
      | Some d => read_digits s' (10 * acc + d)
      | None => acc
      end
  | EmptyString => acc
  end.

Definition clamp_long (z : Z) : Z := Z.max LONG_MIN (Z.min LONG_MAX z).

Definition strtol (s : string) : Z :=
  match skip_spaces s with
  | String "-" s' => clamp_long (- read_digits s' 0)
  | String "+" s' => clamp_long (read_digits s' 0)
  | s' => clamp_long (read_digits s' 0)
  end.

Definition atoi (s : string) : Z := to_int (strtol s).

(** C string access: [s[0]] (the terminating NUL for the empty string) and
    [s + 1]. *)
Definition char0 (s : string) : ascii :=
  match s with String c _ => c | EmptyString => zero end.

Definition str_plus1 (s : string) : string :=
  match s with String _ s' => s' | EmptyString => EmptyString end.

(** ** Data of the driver and of its surroundings *)

(** [sys/mman.h] on Linux; [MAP_FIXED_NOREPLACE] is the fallback the
    source defines itself. *)
Definition PROT_READ : Z := 1.
Definition PROT_WRITE : Z := 2.
Definition MAP_SHARED : Z := 1.
Definition MAP_ANONYMOUS : Z := 32.
Definition MAP_FIXED_NOREPLACE : Z := 1048576.
Definition MAX_DUMMY_SIZE : Z := 256000.

Definition STDOUT_FILENO : Z := 1.
Definition STDERR_FILENO : Z := 2.

(** The arguments of one [mmap] call ([fd] is always -1 and the offset 0). *)
Record mmap_request := MmapRequest {
  mm_addr : Z;
  mm_length : Z;
  mm_prot : Z;
  mm_flags : Z
}.

(** What an open file descriptor refers to. *)
Inductive sink :=
| Inherited (fd : Z)          (* what the parent passed as descriptor [fd] *)
| AppendFile (path : string)  (* a file opened in append mode *)
| ReadOnlyFile (path : string) (* a file opened with O_RDONLY *)
| DevNull.                    (* /dev/null *)

(** What one [read] finds: an error, or the bytes that are available
    (none at end of file). *)
Inductive read_answer :=
| ReadError
| ReadData (bytes : list byte).

Inductive stream := Stdout | Stderr.

(** The texts the driver prints, with the arguments of their format. *)
Inductive message :=
| MsgDummyMapAt (p : Z)
| MsgInfo (prog : option string)
| MsgPerrorUnset
| MsgFailedDuplicate
| MsgRunningInitialize
| MsgContinue
| MsgDeprecated (prog : option string) (N : Z)
| MsgDummyMapNowAt (p : Z)
| MsgReading (length : Z) (path : string)
| MsgExecutionSuccessful
| MsgSuccessfullyExecuted (prog : option string).

(** The calls the driver makes to the outside, with their answers;
    [__afl_manual_init()] takes no argument but reads the global
    [__afl_area_ptr] of the runtime, which the driver declares [extern]
    (line 110) and writes, and is recorded with the value it finds
    there. *)
Inductive event :=
| EPrint (to : stream) (m : message)
| EUnsetenv (name : string) (r : Z)
| ESetenv (name value : string) (r : Z)
| EMmap (req : mmap_request) (r : Z)
| EMunmap (addr length : Z)
| EManualInit (area_ptr : Z)
| EInitialize (argv : list string)
| ETestOneInput (data : list byte)
| EPersistentLoop (N : Z) (answer : bool)
| EReadStdin (count r : Z)
| EOpen (path : string) (ok : bool)
| EReadFile (path : string) (count r : Z)
| EFreopen (path : string) (ok : bool)
| EDup (fd r : Z)
| EFdopen (fd : Z) (ok : bool)
| ESetReportFd (fd : Z)
| EFopenNull (r : option Z)
| EDup2 (oldfd newfd : Z)
| EFclose (fd : Z)
| EAssertFail (expr : string)
| EAbort.

(** The globals of the driver and the process resources it changes.  A
    [FILE *] is represented by the descriptor it wraps ([None] is the
    null pointer); a pointer by its address; [dummy_map] is the base of
    the live mapping made by [__afl_protect], if any; [report_fd] is what
    the sanitizer was told to report to. *)
Record state := State {
  environ : gmap string string;
  __afl_area_ptr : Z;
  __afl_sharedmem_fuzzing : Z;
  output_file : option Z;
  fds : list (option sink);
  report_fd : option Z;
  dummy_map : option Z
}.

(** Everything the driver does not decide itself.

    - Build and link: [MAX_FILE] comes from [config.h], which is not among
      the sources at hand, and is a parameter; the two weak symbols may be
      absent.  [LLVMFuzzerInitialize(&argc, &argv)], when linked, is given
      by the argument vector it leaves behind.
    - Process start: the environment, the descriptor table and the
      arguments the process is started with, and the value the runtime
      gave its global [__afl_area_ptr].
    - libc and kernel: which calls fail, what each [mmap] request
      returns, what the [i]-th argument opens on ([None] when [open]
      fails) and what the [k]-th [read] of descriptor 0 finds.
    - AFL++ runtime: the pointer [__afl_manual_init] leaves in
      [__afl_area_ptr], and the answer of the [k]-th call of
      [__afl_persistent_loop(N)].

    The target, the initializer and the runtime are taken to return: a
    fault inside them ends the process from outside the driver. *)
Record world := World {
  MAX_FILE : Z;
  LLVMFuzzerInitialize : option (list string -> list string);
  __sanitizer_set_report_fd : bool;
  initial_environ : gmap string string;
  initial_fds : list (option sink);
  initial_area_ptr : Z;
  process_argv : list string;
  unsetenv_fails : bool;
  setenv_fails : bool;
  mmap_answer : mmap_request -> Z;
  freopen_ok : string -> bool;
  fdopen_ok : bool;
  devnull_ok : bool;
  malloc_ok : bool;
  open_answer : nat -> string -> option read_answer;
  stdin_answer : nat -> read_answer;
  manual_init_area_ptr : Z;
  persistent_loop_answer : Z -> nat -> bool
}.

Definition initial_state (w : world) : state :=
  {| environ := initial_environ w;
     __afl_area_ptr := initial_area_ptr w;
     __afl_sharedmem_fuzzing := 0;
     output_file := None;
     fds := initial_fds w;
     report_fd := None;
     dummy_map := None |}.

Definition set_environ (e : gmap string string) (st : state) : state :=
  {| environ := e; __afl_area_ptr := __afl_area_ptr st;
     __afl_sharedmem_fuzzing := __afl_sharedmem_fuzzing st;
     output_file := output_file st; fds := fds st;
     report_fd := report_fd st; dummy_map := dummy_map st |}.

Definition set_area_ptr (p : Z) (st : state) : state :=
  {| environ := environ st; __afl_area_ptr := p;
     __afl_sharedmem_fuzzing := __afl_sharedmem_fuzzing st;
     output_file := output_file st; fds := fds st;
     report_fd := report_fd st; dummy_map := dummy_map st |}.

Definition set_sharedmem_fuzzing (v : Z) (st : state) : state :=
  {| environ := environ st; __afl_area_ptr := __afl_area_ptr st;
     __afl_sharedmem_fuzzing := v;
     output_file := output_file st; fds := fds st;
     report_fd := report_fd st; dummy_map := dummy_map st |}.

Definition set_output_file (f : option Z) (st : state) : state :=
  {| environ := environ st; __afl_area_ptr := __afl_area_ptr st;
     __afl_sharedmem_fuzzing := __afl_sharedmem_fuzzing st;
     output_file := f; fds := fds st;
     report_fd := report_fd st; dummy_map := dummy_map st |}.

Definition set_fds (t : list (option sink)) (st : state) : state :=
  {| environ := environ st; __afl_area_ptr := __afl_area_ptr st;
     __afl_sharedmem_fuzzing := __afl_sharedmem_fuzzing st;
     output_file := output_file st; fds := t;
     report_fd := report_fd st; dummy_map := dummy_map st |}.

Definition set_report_fd (r : option Z) (st : state) : state :=
  {| environ := environ st; __afl_area_ptr := __afl_area_ptr st;
     __afl_sharedmem_fuzzing := __afl_sharedmem_fuzzing st;
     output_file := output_file st; fds := fds st;
     report_fd := r; dummy_map := dummy_map st |}.

Definition set_dummy_map (m : option Z) (st : state) : state :=
  {| environ := environ st; __afl_area_ptr := __afl_area_ptr st;
     __afl_sharedmem_fuzzing := __afl_sharedmem_fuzzing st;
     output_file := output_file st; fds := fds st;
     report_fd := report_fd st; dummy_map := m |}.

(** ** The monad of driver code

    A computation runs from a state and yields the calls it made, the
    state it left and how it ended: with a value, in [abort()], or still
    running when the bound on loop iterations was reached. *)

Inductive result (A : Type) :=
| Ret (a : A)
| Aborted
| Running.
Arguments Ret {A} a.
Arguments Aborted {A}.
Arguments Running {A}.

Record outcome (A : Type) := Outcome {
  events : list event;
  final : state;
  res : result A
}.
Arguments Outcome {A} _ _ _.
Arguments events {A} _.
Arguments final {A} _.
Arguments res {A} _.

Definition M (A : Type) : Type := state -> outcome A.

Definition ret {A} (a : A) : M A := fun st => Outcome [] st (Ret a).

Definition bind {A B} (m : M A) (f : A -> M B) : M B := fun st =>
  let o := m st in
  match res o with
  | Ret a => let o' := f a (final o) in
             Outcome (events o ++ events o') (final o') (res o')
  | Aborted => Outcome (events o) (final o) Aborted
  | Running => Outcome (events o) (final o) Running
  end.

Notation "'do' x <- m ; k" := (bind m (fun x => k))
  (at level 10, x name, m at level 100, k at level 200,
   format "'[v' 'do'  x  <-  m ; '/' k ']'").
Notation "m >> k" := (bind m (fun _ => k))
  (at level 100, k at level 200, right associativity).

Definition emit (e : event) : M unit := fun st => Outcome [e] st (Ret tt).
Definition get : M state := fun st => Outcome [] st (Ret st).
Definition modify (f : state -> state) : M unit := fun st => Outcome [] (f st) (Ret tt).
Definition out_of_fuel {A} : M A := fun st => Outcome [] st Running.

(** [abort()]. *)
Definition abort {A} : M A := fun st => Outcome [EAbort] st Aborted.

(** [if (c) body;] for a statement [body]. *)
Definition when (c : bool) (body : M unit) : M unit := if c then body else ret tt.

(** ** libc, the kernel and the AFL++ runtime, as the driver sees them *)

Definition getenv (name : string) : M (option string) :=
  do st <- get; ret (environ st !! name).

(** [unsetenv(name)]: 0 and the variable is gone, or -1 and nothing
    changes. *)
Definition unsetenv (w : world) (name : string) : M Z :=
  if unsetenv_fails w then emit (EUnsetenv name (-1)) >> ret (-1)
  else
    modify (fun st => set_environ (delete name (environ st)) st) >>
    emit (EUnsetenv name 0) >>
    ret 0.

(** [setenv(name, value, 1)]: overwrites. *)
Definition setenv (w : world) (name value : string) : M Z :=
  if setenv_fails w then emit (ESetenv name value (-1)) >> ret (-1)
  else
    modify (fun st => set_environ (<[name := value]> (environ st)) st) >>
    emit (ESetenv name value 0) >>
    ret 0.

Definition fprintf (to : stream) (m : message) : M unit := emit (EPrint to m).
Definition printf (m : message) : M unit := emit (EPrint Stdout m).
Definition perror (m : message) : M unit := emit (EPrint Stderr m).

(** The descriptor table: entry [n] is what descriptor [n] refers to. *)
Definition fd_lookup (t : list (option sink)) (fd : Z) : option sink :=
  if fd <? 0 then None else mjoin (t !! Z.to_nat fd).

Fixpoint lowest_free (t : list (option sink)) : nat :=
  match t with
  | None :: _ => O
  | Some _ :: t' => S (lowest_free t')
  | [] => O
  end.

Definition fd_store (t : list (option sink)) (n : nat) (v : option sink)
  : list (option sink) :=
  if decide (n < length t)%nat then <[n := v]> t
  else t ++ replicate (n - length t) None ++ [v].

(** A new descriptor is the lowest one not in use. *)
Definition fd_alloc (s : sink) : M Z :=
  do st <- get;
  let n := lowest_free (fds st) in
  modify (set_fds (fd_store (fds st) n (Some s))) >>
  ret (Z.of_nat n).

(** [dup(fd)]: -1 when [fd] is not open. *)
Definition dup (fd : Z) : M Z :=
  do st <- get;
  match fd_lookup (fds st) fd with
  | Some s => do n <- fd_alloc s; emit (EDup fd n) >> ret n
  | None => emit (EDup fd (-1)) >> ret (-1)
  end.

(** [dup2(oldfd, newfd)]: nothing happens when [oldfd] is not open or
    equals [newfd]. *)
Definition dup2 (oldfd newfd : Z) : M unit :=
  do st <- get;
  emit (EDup2 oldfd newfd) >>
  match fd_lookup (fds st) oldfd with
  | Some s =>
      if (oldfd =? newfd) || (newfd <? 0) then ret tt
      else modify (set_fds (fd_store (fds st) (Z.to_nat newfd) (Some s)))
  | None => ret tt
  end.

Definition close_fd (fd : Z) : M unit :=
  do st <- get;
  if fd <? 0 then ret tt
  else modify (set_fds (<[Z.to_nat fd := None]> (fds st))).

(** [fopen("/dev/null", "w")]; the stream is its descriptor. *)
Definition fopen_devnull (w : world) : M (option Z) :=
  if devnull_ok w then
    do n <- fd_alloc DevNull; emit (EFopenNull (Some n)) >> ret (Some n)
  else emit (EFopenNull None) >> ret None.

Definition fclose (f : Z) : M unit :=
  emit (EFclose f) >> close_fd f.

(** [freopen(path, "a+", stderr)]: glibc keeps the descriptor number of
    the stream; on failure the stream is closed and the result is null. *)
Definition freopen_stderr (w : world) (path : string) : M (option Z) :=
  do st <- get;
  if freopen_ok w path then
    modify (set_fds (fd_store (fds st) (Z.to_nat STDERR_FILENO) (Some (AppendFile path)))) >>
    emit (EFreopen path true) >>
    ret (Some STDERR_FILENO)
  else
    close_fd STDERR_FILENO >>
    emit (EFreopen path false) >>
    ret None.

Definition fdopen (w : world) (fd : Z) : M bool :=
  emit (EFdopen fd (fdopen_ok w)) >> ret (fdopen_ok w).

(** [mmap(addr, length, prot, flags, -1, 0)]. *)
Definition mmap (w : world) (req : mmap_request) : M Z :=
  let r := to_uint64 (mmap_answer w req) in
  emit (EMmap req r) >>
  when (negb (r =? MAP_FAILED)) (modify (set_dummy_map (Some r))) >>
  ret r.

(** [munmap(addr, length)] of the region this driver mapped. *)
Definition munmap (addr length : Z) : M unit :=
  do st <- get;
  emit (EMunmap addr length) >>
  when (bool_decide (dummy_map st = Some addr)) (modify (set_dummy_map None)).

(** The bytes a [read] of at most [count] bytes delivers and its result. *)
Definition read_bytes (a : read_answer) (count : Z) : list byte :=
  match a with
  | ReadError => []
  | ReadData bytes => take (Z.to_nat count) bytes
  end.

Definition read_result (a : read_answer) (count : Z) : Z :=
  match a with
  | ReadError => -1
  | ReadData bytes => Z.of_nat (length (take (Z.to_nat count) bytes))
  end.

(** [read(fd, buf, count)] where [buf] may be null: a read that has bytes
    to deliver then fails (EFAULT); one that has none returns as it would
    with a buffer (0 at end of file). *)
Definition read_into (buf_ok : bool) (a : read_answer) (count : Z) : read_answer :=
  if buf_ok then a
  else match read_bytes a count with
       | [] => a
       | _ :: _ => ReadError
       end.

(** [__afl_manual_init()]: the runtime finds its global [__afl_area_ptr]
    as the driver left it, attaches its map and sets the global. *)
Definition __afl_manual_init (w : world) : M unit :=
  do st <- get;
  emit (EManualInit (__afl_area_ptr st)) >>
  modify (set_area_ptr (manual_init_area_ptr w)).

(** The [k]-th call of [__afl_persistent_loop(N)]. *)
Definition __afl_persistent_loop (w : world) (N : Z) (k : nat) : M bool :=
  let b := persistent_loop_answer w N k in
  emit (EPersistentLoop N b) >> ret b.

(** [LLVMFuzzerTestOneInput(Data, Size)]: the target sees [Size] bytes. *)
Definition LLVMFuzzerTestOneInput (data : list byte) (size : Z) : M unit :=
  emit (ETestOneInput (take (Z.to_nat size) data)).

(** A failed [assert(e)] reports and aborts. *)
Definition assert (c : bool) (expr : string) : M unit :=
  if c then ret tt else emit (EAssertFail expr) >> abort.

(** ** The driver *)

(** The two marker strings; [sizeof] counts the terminating NUL. *)
Definition AFL_PERSISTENT : list byte :=
  list_byte_of_string "##SIG_AFL_PERSISTENT##" ++ [x00].
Definition AFL_DEFER_FORKSVR : list byte :=
  list_byte_of_string "##SIG_AFL_DEFER_FORKSRV##" ++ [x00].

(** [memcpy(dst + off, src, sizeof(src))] on an array [dst]. *)
Definition memcpy (dst : list byte) (off : nat) (src : list byte) : list byte :=
  take off dst ++ src ++ drop (off + length src) dst.

(** Constructor of priority 0. *)
Definition __decide_deferred_forkserver (w : world) : M unit :=
  do e <- getenv "AFL_DRIVER_DONT_DEFER";
  when (bool_decide (e <> None))
    (do r <- unsetenv w "__AFL_DEFER_FORKSRV";
     when (negb (r =? 0))
       (perror MsgPerrorUnset >> abort)).

Definition maybe_duplicate_stderr (w : world) : M unit :=
  do stderr_duplicate_filename <- getenv "AFL_DRIVER_STDERR_DUPLICATE_FILENAME";
  match stderr_duplicate_filename with
  | None => ret tt
  | Some path =>
      do stderr_duplicate_stream <- freopen_stderr w path;
      match stderr_duplicate_stream with
      | None => fprintf Stderr MsgFailedDuplicate >> abort
      | Some f => modify (set_output_file (Some f))
      end
  end.

Definition discard_output (w : world) (fd : Z) : M unit :=
  do temp <- fopen_devnull w;
  match temp with
  | None => abort
  | Some t => dup2 t fd >> fclose t
  end.

Definition close_stdout (w : world) : M unit :=
  discard_output w STDOUT_FILENO.

Definition dup_and_close_stderr (w : world) : M unit :=
  do st <- get;
  match output_file st with
  | None => abort  (* fileno of a null stream *)
  | Some output_fileno =>
      do output_fd <- dup output_fileno;
      if output_fd <=? 0 then abort else
      do new_output_file <- fdopen w output_fd;
      if negb new_output_file then abort else
      if negb (__sanitizer_set_report_fd w) then ret tt else
      emit (ESetReportFd output_fd) >>
      modify (set_report_fd (Some output_fd)) >>
      discard_output w output_fileno
  end.

Definition maybe_close_fd_mask (w : world) : M unit :=
  do fd_mask_str <- getenv "AFL_DRIVER_CLOSE_FD_MASK";
  match fd_mask_str with
  | None => ret tt
  | Some s =>
      let fd_mask := atoi s in
      when (negb (Z.land fd_mask 2 =? 0)) (dup_and_close_stderr w) >>
      when (negb (Z.land fd_mask 1 =? 0)) (close_stdout w)
  end.

(** The body of the [for] loop of [ExecuteFilesOnyByOne], from index [i]
    over the arguments [argv[i]], [argv[i+1]], ...; [buf] is the result
    of [malloc] (null when it failed).  The descriptor [open] returns is
    read once and never closed. *)
Fixpoint ExecuteFiles_from (w : world) (i : nat) (args : list string) : M unit :=
  match args with
  | [] => ret tt
  | path :: rest =>
      match open_answer w i path with
      | None => emit (EOpen path false) >> ExecuteFiles_from w (S i) rest
      | Some a =>
          do fd <- fd_alloc (ReadOnlyFile path);
          emit (EOpen path true) >>
          let a := read_into (malloc_ok w) a (MAX_FILE w) in
          let length := read_result a (MAX_FILE w) in
          emit (EReadFile path (MAX_FILE w) length) >>
          when (0 <? length)
            (printf (MsgReading length path) >>
             LLVMFuzzerTestOneInput (read_bytes a (MAX_FILE w)) length >>
             printf MsgExecutionSuccessful) >>
          ExecuteFiles_from w (S i) rest
      end
  end.

Definition ExecuteFilesOnyByOne (w : world) (argv : list string) : M Z :=
  ExecuteFiles_from w 1 (drop 1 argv) >> ret 0.

(** The arguments of the three [mmap] calls of [__afl_protect]. *)
Definition map_at_0x10000_noreplace : mmap_request :=
  MmapRequest 65536 MAX_DUMMY_SIZE (Z.lor PROT_READ PROT_WRITE)
    (Z.lor MAP_FIXED_NOREPLACE (Z.lor MAP_SHARED MAP_ANONYMOUS)).
Definition map_at_0x10000 : mmap_request :=
  MmapRequest 65536 MAX_DUMMY_SIZE (Z.lor PROT_READ PROT_WRITE)
    (Z.lor MAP_SHARED MAP_ANONYMOUS).
Definition map_anywhere : mmap_request :=
  MmapRequest NULL MAX_DUMMY_SIZE (Z.lor PROT_READ PROT_WRITE)
    (Z.lor MAP_SHARED MAP_ANONYMOUS).

(** Constructor of priority 1. *)
Definition __afl_protect (w : world) : M unit :=
  setenv w "__AFL_DEFER_FORKSRV" "1" >>
  do p <- mmap w map_at_0x10000_noreplace;
  modify (set_area_ptr p) >>
  do st <- get;
  when (to_uint64 (__afl_area_ptr st) =? to_uint64 (-1))
    (do p <- mmap w map_at_0x10000;
     modify (set_area_ptr p)) >>
  do st <- get;
  when (to_uint64 (__afl_area_ptr st) =? to_uint64 (-1))
    (do p <- mmap w map_anywhere;
     modify (set_area_ptr p)).

(** [main], lines 269-300: banner, redirection, the optional
    [LLVMFuzzerInitialize(&argc, &argv)], which may replace the argument
    vector. *)
Definition main_init (w : world) : M (list string) :=
  let argv := process_argv w in
  do st <- get;
  fprintf Stderr (MsgDummyMapAt (__afl_area_ptr st)) >>
  printf (MsgInfo (argv !! 0%nat)) >>
  modify (set_output_file (Some STDERR_FILENO)) >>
  maybe_duplicate_stderr w >>
  maybe_close_fd_mask w >>
  match LLVMFuzzerInitialize w with
  | Some initialize =>
      fprintf Stderr MsgRunningInitialize >>
      emit (EInitialize argv) >>
      fprintf Stderr MsgContinue >>
      ret (initialize argv)
  | None => ret argv
  end.

Definition dummy_input : list byte :=
  memcpy (memcpy (replicate 64 x00) 0 AFL_PERSISTENT) 32 AFL_DEFER_FORKSVR.

(** The [while (__afl_persistent_loop(N))] loop, from its [k]-th
    evaluation of the condition; [fuel] bounds the evaluations followed. *)
Fixpoint persistent_loop (w : world) (N : Z) (k : nat) (fuel : nat) : M unit :=
  match fuel with
  | O => out_of_fuel
  | S fuel' =>
      do continue <- __afl_persistent_loop w N k;
      if continue then
        let r := read_result (stdin_answer w k) 1024000 in
        emit (EReadStdin 1024000 r) >>
        when (0 <? r)
          (LLVMFuzzerTestOneInput (read_bytes (stdin_answer w k) 1024000) r) >>
        persistent_loop w N (S k) fuel'
      else ret tt
  end.

(** [main], lines 316-344: from [assert(N > 0)] to the end. *)
Definition main_persistent (w : world) (fuel : nat) (argv : list string) (N : Z)
  : M Z :=
  assert (0 <? N) "N > 0" >>
  do e <- getenv "AFL_DISABLE_LLVM_INSTRUMENTATION";
  when (bool_decide (e = None))
    (do st <- get;
     munmap (__afl_area_ptr st) MAX_DUMMY_SIZE >>
     modify (set_area_ptr NULL) >>
     __afl_manual_init w) >>
  do st <- get;
  fprintf Stderr (MsgDummyMapNowAt (__afl_area_ptr st)) >>
  LLVMFuzzerTestOneInput dummy_input 1 >>
  persistent_loop w N 0 fuel >>
  printf (MsgSuccessfullyExecuted (argv !! 0%nat)) >>
  ret 0.

(** [main], lines 308-312: the block that executes the files given as
    arguments and returns. *)
Definition main_batch (w : world) (argv : list string) : M Z :=
  modify (set_sharedmem_fuzzing 0) >>
  do st <- get;
  munmap (__afl_area_ptr st) MAX_DUMMY_SIZE >>
  modify (set_area_ptr NULL) >>
  __afl_manual_init w >>
  ExecuteFilesOnyByOne w argv.

(** [main], lines 301-314: the budget [N] and the choice between the
    persistent loop and the files given as arguments. *)
Definition main_run (w : world) (fuel : nat) (argv : list string) : M Z :=
  let argc := Z.of_nat (length argv) in
  let arg1 := default "" (argv !! 1%nat) in
  let N := INT_MAX in
  if (argc =? 2) && Ascii.eqb (char0 arg1) "-" then
    let N := atoi (str_plus1 arg1) in
    main_persistent w fuel argv N
  else
    let N := if argc =? 2 then atoi arg1 else N in
    if (argc =? 2) && (0 <? N) then
      printf (MsgDeprecated (argv !! 0%nat) N) >>
      main_persistent w fuel argv N
    else if 1 <? argc then
      main_batch w argv
    else
      main_persistent w fuel argv N.

Definition main (w : world) (fuel : nat) : M Z :=
  do argv <- main_init w;
  main_run w fuel argv.

(** The process: the constructors in the order of their priorities, then
    [main]. *)
Definition constructors (w : world) : M unit :=
  __decide_deferred_forkserver w >> __afl_protect w.

Definition process (w : world) (fuel : nat) : outcome Z :=
  (constructors w >> main w fuel) (initial_state w).

(** * Vocabulary of the statements *)

Definition emits {A} (P : event -> bool) (m : M A) : Prop :=
  forall st, forallb P (events (m st)) = true.

(** A property of the state that a piece of code does not destroy,
    however it ends. *)
Definition preserves {A} (I : state -> Prop) (m : M A) : Prop :=
  forall st, I st -> I (final (m st)).

(** Calls made before the arguments are looked at: environment, mapping
    and redirection calls, printing, the target's initializer. *)
Definition startup_event (e : event) : bool :=
  match e with
  | EPrint _ _ | EUnsetenv _ _ | ESetenv _ _ _ | EMmap _ _ | EInitialize _
  | EFreopen _ _ | EDup _ _ | EFdopen _ _ | ESetReportFd _ | EFopenNull _
  | EDup2 _ _ | EFclose _ | EAbort => true
  | _ => false
  end.

(** Calls made while the files named as arguments are executed. *)
Definition batch_event (e : event) : bool :=
  match e with
  | EPrint _ _ | EOpen _ _ | EReadFile _ _ _ | ETestOneInput _ => true
  | _ => false
  end.

(** Calls made by the persistent loop. *)
Definition loop_event (e : event) : bool :=
  match e with
  | EPersistentLoop _ _ | EReadStdin _ _ | ETestOneInput _ => true
  | _ => false
  end.

(** The process up to the point where [main] looks at its arguments;
    the value is the argument vector [main] goes on with. *)
Definition startup (w : world) : M (list string) :=
  constructors w >> main_init w.

(** The two ways [main] can go on: the persistent loop with budget [N]
    (after the deprecation warning or not), or the files. *)
Inductive run_mode :=
| PersistentLoop (N : Z) (deprecated : bool)
| BatchFile.

(** The conditions of lines 302-306, as a value: which branch is taken,
    with which [N], and whether the deprecation warning is printed. *)
Definition main_mode (argv : list string) : run_mode :=
  let argc := Z.of_nat (length argv) in
  let arg1 := default "" (argv !! 1%nat) in
  if (argc =? 2) && Ascii.eqb (char0 arg1) "-" then
    PersistentLoop (atoi (str_plus1 arg1)) false
  else if (argc =? 2) && (0 <? atoi arg1) then
    PersistentLoop (atoi arg1) true
  else if 1 <? argc then BatchFile
  else PersistentLoop INT_MAX false.

(** The calls of one iteration whose condition held: the consultation of
    the loop primitive, the read from descriptor 0, and the target only
    when the read delivered something. *)
Definition iteration_events (w : world) (N : Z) (k : nat) : list event :=
  let r := read_result (stdin_answer w k) 1024000 in
  [EPersistentLoop N true; EReadStdin 1024000 r] ++
  (if 0 <? r then [ETestOneInput (read_bytes (stdin_answer w k) 1024000)] else []).

(** What follows the loop: the closing message when the loop was left. *)
Definition closing_events (argv : list string) (r : result unit) : list event :=
  match r with
  | Ret _ => [EPrint Stdout (MsgSuccessfullyExecuted (argv !! 0%nat))]
  | _ => []
  end.

Definition closing_result (r : result unit) : result Z :=
  match r with
  | Ret _ => Ret 0
  | Aborted => Aborted
  | Running => Running
  end.

(** The state in which the loop runs when the placeholder was released:
    the mapping is gone if the pointer named it, and the pointer is the
    one the runtime installed. *)
Definition released (w : world) (st : state) : state :=
  set_area_ptr (manual_init_area_ptr w)
    (set_area_ptr NULL
       (if bool_decide (dummy_map st = Some (__afl_area_ptr st))
        then set_dummy_map None st else st)).

Definition is_target (e : event) : bool :=
  match e with ETestOneInput _ => true | _ => false end.

Definition is_consult (e : event) : bool :=
  match e with EPersistentLoop _ _ => true | _ => false end.

Definition is_munmap (e : event) : bool :=
  match e with EMunmap _ _ => true | _ => false end.

Definition is_manual_init (e : event) : bool :=
  match e with EManualInit _ => true | _ => false end.

(** What the [i]-th argument yields: the bytes read, when the path opens
    and the read returns more than zero. *)
Definition file_yield (w : world) (i : nat) (path : string) : option (list byte) :=
  match open_answer w i path with
  | None => None
  | Some a =>
      let a := if malloc_ok w then a else ReadError in
      if 0 <? read_result a (MAX_FILE w) then Some (read_bytes a (MAX_FILE w))
      else None
  end.

(** One target call per argument that yields, in the order of the
    arguments. *)
Fixpoint batch_invocations (w : world) (i : nat) (paths : list string) : list event :=
  match paths with
  | [] => []
  | path :: rest =>
      match file_yield w i path with
      | Some bytes => [ETestOneInput bytes]
      | None => []
      end ++ batch_invocations w (S i) rest
  end.

(** ** Decimal numerals *)

Definition digit_char (d : nat) : ascii := ascii_of_nat (48 + d).

(** The text of a sequence of decimal digits, most significant first. *)
Fixpoint numeral (ds : list nat) : string :=
  match ds with
  | [] => EmptyString
  | d :: ds' => String (digit_char d) (numeral ds')
  end.

(** The integer a sequence of decimal digits denotes. *)
Fixpoint decimal_value (ds : list nat) : Z :=
  match ds with
  | [] => 0
  | d :: ds' => Z.of_nat d * 10 ^ Z.of_nat (length ds') + decimal_value ds'
  end.

(** The digits of a text that consists of decimal digits only. *)
Fixpoint digits_of (s : string) : option (list nat) :=
  match s with
  | EmptyString => Some []
  | String c s' =>
      match digit_of c, digits_of s' with
      | Some d, Some ds => Some (Z.to_nat d :: ds)
      | _, _ => None
      end
  end.

(** The integer a text denotes, when the text is an integer: one or more
    decimal digits. *)
Definition integer_text (s : string) : option Z :=
  match s with
  | EmptyString => None
  | _ => decimal_value <$> digits_of s
  end.

(** ** The choice of mode in the words of the specification

    "If a single argument of the form [-<integer>] is given, N is that
    integer; else if a single bare positive integer argument is given, N
    is that integer with a warning emitted; else if any other arguments
    are present, the harness falls back to batch mode; otherwise N
    defaults to an effectively unbounded value."  The arguments are those
    after the program name. *)
Definition specified_mode (args : list string) : run_mode :=
  match args with
  | [] => PersistentLoop INT_MAX false
  | [a] =>
      match a with
      | String "-" t =>
          match integer_text t with
          | Some n => PersistentLoop n false
          | None => BatchFile
          end
      | _ =>
          match integer_text a with
          | Some n => if 0 <? n then PersistentLoop n true else BatchFile
          | None => BatchFile
          end
      end
  | _ => BatchFile
  end.

(** ** Orders of calls *)

Definition is_open (e : event) : bool :=
  match e with EOpen _ _ => true | _ => false end.

Definition is_mmap (e : event) : bool :=
  match e with EMmap _ _ => true | _ => false end.

Definition is_discard (e : event) : bool :=
  match e with EFopenNull _ | EDup2 _ _ => true | _ => false end.

(** The paths of [main] that reach a call of [__afl_manual_init()]: the
    start-up returns and either the arguments select the files (lines
    306-312), or they select the persistent loop, the budget passes
    [assert(N > 0)] and [AFL_DISABLE_LLVM_INSTRUMENTATION] is not set
    (lines 316-322). *)
Definition signalling_path (w : world) : bool :=
  let s := startup w (initial_state w) in
  match res s with
  | Ret argv =>
      match main_mode argv with
      | BatchFile => true
      | PersistentLoop N _ =>
          (0 <? N) &&
          bool_decide (environ (final s) !! "AFL_DISABLE_LLVM_INSTRUMENTATION" = None)
      end
  | _ => false
  end.

(** Neither an unmapping nor the deferred-initialization signal. *)
Definition keeps_map (e : event) : bool :=
  negb (is_munmap e || is_manual_init e).

(** Neither a call of the target nor a consultation of the loop
    primitive. *)
Definition before_fuzzing (e : event) : bool :=
  negb (is_target e || is_consult e).

Definition count (P : event -> bool) (l : list event) : nat :=
  length (List.filter P l).

(** Every unmapping in [l] comes after a deferred-initialization signal
    ([signalled] tells whether one came before [l]). *)
Fixpoint unmap_follows_signal (signalled : bool) (l : list event) : bool :=
  match l with
  | [] => true
  | EMunmap _ _ :: l' => signalled && unmap_follows_signal signalled l'
  | EManualInit _ :: l' => unmap_follows_signal true l'
  | _ :: l' => unmap_follows_signal signalled l'
  end.

(** ** The mapping strategies of [__afl_protect] *)

Definition strategies : list mmap_request :=
  [map_at_0x10000_noreplace; map_at_0x10000; map_anywhere].

(** Trying a list of requests in order up to the first that succeeds:
    the calls made, and the pointer that results. *)
Fixpoint attempts (w : world) (reqs : list mmap_request) : list event :=
  match reqs with
  | [] => []
  | req :: rest =>
      let r := to_uint64 (mmap_answer w req) in
      EMmap req r :: (if r =? MAP_FAILED then attempts w rest else [])
  end.

Fixpoint first_success (w : world) (reqs : list mmap_request) : Z :=
  match reqs with
  | [] => MAP_FAILED
  | req :: rest =>
      let r := to_uint64 (mmap_answer w req) in
      if r =? MAP_FAILED then first_success w rest else r
  end.

(** ** Sample worlds

    A process started with descriptors 0, 1 and 2 open, in which every
    libc call succeeds, [mmap] grants the address asked for, only the
    file [a.bin] exists, descriptor 0 alternates between one byte and
    nothing, and the loop primitive counts its calls up to [N]. *)
Definition sample_world (env : gmap string string) (argv : list string)
    (sanitizer : bool) : world :=
  {| MAX_FILE := 1048576;
     LLVMFuzzerInitialize := None;
     __sanitizer_set_report_fd := sanitizer;
     initial_environ := env;
     initial_fds := [Some (Inherited 0); Some (Inherited 1); Some (Inherited 2)];
     initial_area_ptr := 4096;
     process_argv := argv;
     unsetenv_fails := false;
     setenv_fails := false;
     mmap_answer := fun req => if mm_addr req =? 0 then 1048576 else mm_addr req;
     freopen_ok := fun _ => true;
     fdopen_ok := true;
     devnull_ok := true;
     malloc_ok := true;
     open_answer := fun _ path =>
       if String.eqb path "a.bin" then Some (ReadData [x48; x49]) else None;
     stdin_answer := fun k => if Nat.even k then ReadData [x41] else ReadData [];
     manual_init_area_ptr := 8192;
     persistent_loop_answer := fun N k => Z.of_nat k <? N |}.

Definition world_dash_x : world := sample_world ∅ ["prog"; "-x"] false.
Definition world_budget_3 : world := sample_world ∅ ["prog"; "-3"] false.
Definition world_deprecated_7 : world := sample_world ∅ ["prog"; "7"] false.
Definition world_batch : world := sample_world ∅ ["prog"; "a.bin"; "b.bin"] false.
Definition world_uninstrumented : world :=
  sample_world {["AFL_DISABLE_LLVM_INSTRUMENTATION" := "1"]} ["prog"; "-3"] false.
Definition world_mask_2 : world :=
  sample_world {["AFL_DRIVER_CLOSE_FD_MASK" := "2"]} ["prog"] false.
Definition world_dont_defer : world :=
  sample_world {["AFL_DRIVER_DONT_DEFER" := "1"]} ["prog"] false.

(** The same process on a machine where no [mmap] succeeds. *)
Definition no_memory_world : world :=
  {| MAX_FILE := 1048576;
     LLVMFuzzerInitialize := None;
     __sanitizer_set_report_fd := false;
     initial_environ := ∅;
     initial_fds := [Some (Inherited 0); Some (Inherited 1); Some (Inherited 2)];
     initial_area_ptr := 4096;
     process_argv := ["prog"];
     unsetenv_fails := false;
     setenv_fails := false;
     mmap_answer := fun _ => -1;
     freopen_ok := fun _ => true;
     fdopen_ok := true;
     devnull_ok := true;
     malloc_ok := true;
     open_answer := fun _ _ => None;
     stdin_answer := fun _ => ReadData [];
     manual_init_area_ptr := 8192;
     persistent_loop_answer := fun _ _ => false |}.

(** ** Further vocabulary *)

(** [LLVMFuzzerMutate(Data, Size, MaxSize)]: present only so that targets
    that call it link; it changes nothing and reports a size of 0. *)
Definition LLVMFuzzerMutate (Data : list byte) (Size MaxSize : Z) : Z := 0.

Definition is_read_stdin (e : event) : bool :=
  match e with EReadStdin _ _ => true | _ => false end.

Definition is_read_file (e : event) : bool :=
  match e with EReadFile _ _ _ => true | _ => false end.

Definition is_initialize (e : event) : bool :=
  match e with EInitialize _ => true | _ => false end.

(** The path of an [open] call. *)
Definition opened_path (e : event) : option string :=
  match e with EOpen path _ => Some path | _ => None end.

(** Two descriptor tables that agree on every descriptor but [fd]. *)
(** The number of descriptors in use. *)
Fixpoint open_count (t : list (option sink)) : nat :=
  match t with
  | [] => O
  | Some _ :: t' => S (open_count t')
  | None :: t' => open_count t'
  end.

(** The arguments that open, [paths] being the arguments from index [i]. *)
Fixpoint opening (w : world) (i : nat) (paths : list string) : list string :=
  match paths with
  | [] => []
  | path :: rest =>
      match open_answer w i path with
      | Some _ => path :: opening w (S i) rest
      | None => opening w (S i) rest
      end
  end.

Definition same_but (fd : Z) (t t' : list (option sink)) : Prop :=
  forall j, j <> fd -> fd_lookup t' j = fd_lookup t j.

(** A process whose parent closed descriptor 0. *)
Definition world_stdin_closed : world :=
  {| MAX_FILE := 1048576;
     LLVMFuzzerInitialize := None;
     __sanitizer_set_report_fd := true;
     initial_environ := {["AFL_DRIVER_CLOSE_FD_MASK" := "2"]};
     initial_fds := [None; Some (Inherited 1); Some (Inherited 2)];
     initial_area_ptr := 4096;
     process_argv := ["prog"];
     unsetenv_fails := false;
     setenv_fails := false;
     mmap_answer := fun req => mm_addr req;
     freopen_ok := fun _ => true;
     fdopen_ok := true;
     devnull_ok := true;
     malloc_ok := true;
     open_answer := fun _ _ => None;
     stdin_answer := fun _ => ReadError;
     manual_init_area_ptr := 8192;
     persistent_loop_answer := fun _ _ => false |}.

Definition world_mask_4 : world :=
  sample_world {["AFL_DRIVER_CLOSE_FD_MASK" := "4"]} ["prog"] true.
Definition world_mask_1 : world :=
  sample_world {["AFL_DRIVER_CLOSE_FD_MASK" := "1"]} ["prog"] true.

(** Standard error duplicated to a file and closed for the target, with
    the sanitizer hook linked. *)
Definition world_stderr_file : world :=
  sample_world
    (<["AFL_DRIVER_STDERR_DUPLICATE_FILENAME" := "err.log"]>
       {["AFL_DRIVER_CLOSE_FD_MASK" := "2"]})
    ["prog"] true.

(** A target call whose payload has between 1 and [bound] bytes (any
    other call passes). *)
Definition payload_within (bound : Z) (e : event) : bool :=
  match e with
  | ETestOneInput data =>
      (0 <? Z.of_nat (length data)) && (Z.of_nat (length data) <=? bound)
  | _ => true
  end.

(** The sample process on a machine where [malloc] fails. *)
Definition world_no_buffer : world :=
  {| MAX_FILE := 1048576;
     LLVMFuzzerInitialize := None;
     __sanitizer_set_report_fd := false;
     initial_environ := ∅;
     initial_fds := [Some (Inherited 0); Some (Inherited 1); Some (Inherited 2)];
     initial_area_ptr := 4096;
     process_argv := ["prog"; "a.bin"; "b.bin"];
     unsetenv_fails := false;
     setenv_fails := false;
     mmap_answer := fun req => mm_addr req;
     freopen_ok := fun _ => true;
     fdopen_ok := true;
     devnull_ok := true;
     malloc_ok := false;
     open_answer := fun _ path =>
       if String.eqb path "a.bin" then Some (ReadData [x48; x49]) else None;
     stdin_answer := fun _ => ReadData [];
     manual_init_area_ptr := 8192;
     persistent_loop_answer := fun _ _ => false |}.

(** A consultation of the loop primitive whose budget is positive and
    fits an [int] (any other call passes). *)
Definition budget_in_range (e : event) : bool :=
  match e with
  | EPersistentLoop N _ => (0 <? N) && (N <=? INT_MAX)
  | _ => true
  end.

(** Not a call on a file given as argument. *)
Definition no_file_call (e : event) : bool :=
  negb (is_open e || is_read_file e).

(** Not a call of the persistent loop on its input channel. *)
Definition no_loop_call (e : event) : bool :=
  negb (is_consult e || is_read_stdin e).

(** A call that redirects a descriptor or a stream. *)
Definition is_redirection (e : event) : bool :=
  match e with
  | EFreopen _ _ | EDup _ _ | EFdopen _ _ | ESetReportFd _ | EFopenNull _
  | EDup2 _ _ | EFclose _ => true
  | _ => false
  end.

(** A start-up call other than the call of the initializer. *)
Definition before_initialize (e : event) : bool :=
  startup_event e && negb (is_initialize e).

(** Neither the call of the initializer nor a redirection. *)
Definition after_initialize (e : event) : bool :=
  negb (is_initialize e || is_redirection e).

(** A target whose initializer drops every argument after the program
    name, started on a file name. *)
Definition world_initializer : world :=
  {| MAX_FILE := 1048576;
     LLVMFuzzerInitialize := Some (take 1);
     __sanitizer_set_report_fd := false;
     initial_environ := {["AFL_DRIVER_CLOSE_FD_MASK" := "1"]};
     initial_fds := [Some (Inherited 0); Some (Inherited 1); Some (Inherited 2)];
     initial_area_ptr := 4096;
     process_argv := ["prog"; "a.bin"];
     unsetenv_fails := false;
     setenv_fails := false;
     mmap_answer := fun req => mm_addr req;
     freopen_ok := fun _ => true;
     fdopen_ok := true;
     devnull_ok := true;
     malloc_ok := true;
     open_answer := fun _ _ => Some (ReadData [x48]);
     stdin_answer := fun _ => ReadData [];
     manual_init_area_ptr := 8192;
     persistent_loop_answer := fun _ _ => false |}.

(** Descriptor [j] refers to [s], and [output_file] is null or the
    standard error stream. *)
Definition keeps_descriptor (j : Z) (s : sink) (st : state) : Prop :=
  fd_lookup (fds st) j = Some s /\
  (output_file st = None \/ output_file st = Some STDERR_FILENO).

(** A [munmap] of [MAX_DUMMY_SIZE] bytes at [p] (any other call
    passes). *)
Definition unmaps_only (p : Z) (e : event) : bool :=
  match e with
  | EMunmap addr len => (addr =? p) && (len =? MAX_DUMMY_SIZE)
  | _ => true
  end.

(** [__afl_area_ptr] holds what [__afl_protect] obtained, and the
    placeholder, if mapped, is mapped there. *)
Definition map_tracked (w : world) (st : state) : Prop :=
  __afl_area_ptr st = first_success w strategies /\
  (dummy_map st = None \/ dummy_map st = Some (__afl_area_ptr st)).

(** The override is set but the environment cannot be changed. *)
Definition world_unsetenv_fails : world :=
  {| MAX_FILE := 1048576;
     LLVMFuzzerInitialize := None;
     __sanitizer_set_report_fd := false;
     initial_environ := {["AFL_DRIVER_DONT_DEFER" := "1"]};
     initial_fds := [Some (Inherited 0); Some (Inherited 1); Some (Inherited 2)];
     initial_area_ptr := 4096;
     process_argv := ["prog"];
     unsetenv_fails := true;
     setenv_fails := false;
     mmap_answer := fun req => mm_addr req;
     freopen_ok := fun _ => true;
     fdopen_ok := true;
     devnull_ok := true;
     malloc_ok := true;
     open_answer := fun _ _ => None;
     stdin_answer := fun _ => ReadData [];
     manual_init_area_ptr := 8192;
     persistent_loop_answer := fun _ _ => false |}.

Definition world_mask_3 : world :=
  sample_world {["AFL_DRIVER_CLOSE_FD_MASK" := "3"]} ["prog"] true.

(** * Reasoning about runs *)

Example atoi_50 : atoi "50" = 50.
Proof. reflexivity. Qed.

Example atoi_neg : atoi "  -17abc" = -17.
Proof. reflexivity. Qed.

Example atoi_word : atoi "a.bin" = 0.
Proof. reflexivity. Qed.

Example atoi_saturates : atoi "99999999999999999999" = -1.
Proof. reflexivity. Qed.

(** ** Scenarios *)

(** [prog -3]: the placeholder is mapped at 0x10000, released, and the
    loop runs three iterations, the second on an empty read. *)
Example scenario_budget_3 :
  process world_budget_3 10 =
    Outcome
      [ESetenv "__AFL_DEFER_FORKSRV" "1" 0;
       EMmap map_at_0x10000_noreplace 65536;
       EPrint Stderr (MsgDummyMapAt 65536);
       EPrint Stdout (MsgInfo (Some "prog"));
       EMunmap 65536 256000; EManualInit 0;
       EPrint Stderr (MsgDummyMapNowAt 8192);
       ETestOneInput [x23];
       EPersistentLoop 3 true; EReadStdin 1024000 1; ETestOneInput [x41];
       EPersistentLoop 3 true; EReadStdin 1024000 0;
       EPersistentLoop 3 true; EReadStdin 1024000 1; ETestOneInput [x41];
       EPersistentLoop 3 false;
       EPrint Stdout (MsgSuccessfullyExecuted (Some "prog"))]
      (final (process world_budget_3 10)) (Ret 0).
Proof. vm_compute. reflexivity. Qed.

(** [prog 7], the deprecated form. *)
Example scenario_deprecated_7 :
  main_mode ["prog"; "7"] = PersistentLoop 7 true /\
  events (process world_deprecated_7 0) !! 4%nat
    = Some (EPrint Stdout (MsgDeprecated (Some "prog") 7)).
Proof. vm_compute. split; reflexivity. Qed.

(** [prog a.bin b.bin]: both files are tried in the order given; only
    the first exists. *)
Example scenario_batch :
  drop 4 (events (process world_batch 0)) =
    [EMunmap 65536 256000; EManualInit 0;
     EOpen "a.bin" true; EReadFile "a.bin" 1048576 2;
     EPrint Stdout (MsgReading 2 "a.bin");
     ETestOneInput [x48; x49];
     EPrint Stdout MsgExecutionSuccessful;
     EOpen "b.bin" false] /\
  res (process world_batch 0) = Ret 0.
Proof. vm_compute. split; reflexivity. Qed.

(** [AFL_DRIVER_CLOSE_FD_MASK=3] with the sanitizer hook linked: the
    descriptor of stderr is duplicated first, then descriptors 2 and 1
    are put on the null sink. *)
Example scenario_mask_3 :
  List.filter (fun e => negb (startup_event e && negb (is_discard e)) ||
                        match e with EDup _ _ => true | _ => false end)
    (events (process
       (sample_world {["AFL_DRIVER_CLOSE_FD_MASK" := "3"]} ["prog"] true) 0)) =
    [EDup 2 3; EFopenNull (Some 4); EDup2 4 2; EFopenNull (Some 4); EDup2 4 1;
     EMunmap 65536 256000; EManualInit 0; ETestOneInput [x23]] /\
  fds (final (process
       (sample_world {["AFL_DRIVER_CLOSE_FD_MASK" := "3"]} ["prog"] true) 0)) =
    [Some (Inherited 0); Some DevNull; Some DevNull; Some (Inherited 2); None].
Proof. vm_compute. split; reflexivity. Qed.

(** ** Laws of the monad *)

Lemma bind_ret_l {A B} (a : A) (f : A -> M B) (st : state) :
  bind (ret a) f st = f a st.
Proof. unfold bind, ret; simpl. by destruct (f a st). Qed.

Lemma bind_assoc {A B C} (m : M A) (f : A -> M B) (g : B -> M C) (st : state) :
  bind (bind m f) g st = bind m (fun a => bind (f a) g) st.
Proof.
  unfold bind; simpl.
  destruct (res (m st)) as [a| |]; simpl; try done.
  destruct (res (f a (final (m st)))) as [b| |]; simpl; try done.
  by rewrite app_assoc.
Qed.

(** A run of [bind m f] whose first part returns. *)
Lemma bind_Ret {A B} (m : M A) (f : A -> M B) (st : state) (a : A) :
  res (m st) = Ret a ->
  bind m f st =
    Outcome (events (m st) ++ events (f a (final (m st))))
            (final (f a (final (m st)))) (res (f a (final (m st)))).
Proof. intros H. unfold bind. by rewrite H. Qed.

(** A run of [bind m f] whose first part does not return. *)
Lemma bind_stop {A B} (m : M A) (f : A -> M B) (st : state) :
  (forall a, res (m st) <> Ret a) ->
  events (bind m f st) = events (m st) /\ final (bind m f st) = final (m st) /\
  forall b, res (bind m f st) <> Ret b.
Proof.
  intros H. unfold bind. destruct (res (m st)) as [a| |]; simpl.
  - by destruct (H a).
  - done.
  - done.
Qed.

(** Symbolic execution of the primitives at the head of a sequence. *)
Lemma bind_get {B} (f : state -> M B) (st : state) : bind get f st = f st st.
Proof. unfold bind, get; simpl. by destruct (f st st). Qed.

Lemma bind_modify {B} (g : state -> state) (f : unit -> M B) (st : state) :
  bind (modify g) f st = f tt (g st).
Proof. unfold bind, modify; simpl. by destruct (f tt (g st)). Qed.

Lemma bind_emit {B} (e : event) (f : unit -> M B) (st : state) :
  bind (emit e) f st =
    Outcome (e :: events (f tt st)) (final (f tt st)) (res (f tt st)).
Proof. done. Qed.

Lemma bind_abort {A B} (f : A -> M B) (st : state) :
  bind abort f st = Outcome [EAbort] st Aborted.
Proof. done. Qed.

Lemma outcome_eta {A} (o : outcome A) : Outcome (events o) (final o) (res o) = o.
Proof. by destruct o. Qed.

Ltac run_step :=
  first [ rewrite bind_assoc | rewrite bind_ret_l | rewrite bind_get
        | rewrite bind_modify | rewrite bind_emit | rewrite bind_abort ];
  cbn [events final res].

Ltac run := repeat run_step.

(** ** Footprints: the kinds of calls a piece of code can make *)

Section Footprint.
Context (P : event -> bool).

Lemma emits_ret {A} (a : A) : emits P (ret a).
Proof. done. Qed.

Lemma emits_get : emits P get.
Proof. done. Qed.

Lemma emits_modify f : emits P (modify f).
Proof. done. Qed.

Lemma emits_out_of_fuel {A} : emits P (@out_of_fuel A).
Proof. done. Qed.

Lemma emits_emit e : P e = true -> emits P (emit e).
Proof. intros H st; simpl. by rewrite H. Qed.

Lemma emits_abort {A} : P EAbort = true -> emits P (@abort A).
Proof. intros H st; simpl. by rewrite H. Qed.

Lemma emits_bind {A B} (m : M A) (f : A -> M B) :
  emits P m -> (forall a, emits P (f a)) -> emits P (bind m f).
Proof.
  intros Hm Hf st. unfold bind.
  destruct (res (m st)) as [a| |]; simpl; try apply Hm.
  rewrite forallb_app, Hm. apply Hf.
Qed.

Lemma emits_when c m : emits P m -> emits P (when c m).
Proof. intros H. destruct c; [done | apply emits_ret]. Qed.
End Footprint.

(** One step of a footprint proof: split a sequence, discharge a
    primitive, or branch as the code does. *)
Ltac footprint_step :=
  match goal with
  | |- emits _ (bind _ _) => apply emits_bind; [| intros ?]
  | |- emits _ (ret _) => apply emits_ret
  | |- emits _ get => apply emits_get
  | |- emits _ (modify _) => apply emits_modify
  | |- emits _ out_of_fuel => apply emits_out_of_fuel
  | |- emits _ (emit _) => apply emits_emit; reflexivity
  | |- emits _ abort => apply emits_abort; reflexivity
  | |- emits _ (when _ _) => apply emits_when
  | |- emits _ (if ?c then _ else _) => destruct c
  | |- emits _ (match ?x with _ => _ end) => destruct x
  end.

Ltac footprint := repeat footprint_step.

Lemma decide_deferred_forkserver_footprint w :
  emits startup_event (__decide_deferred_forkserver w).
Proof.
  unfold __decide_deferred_forkserver, getenv, unsetenv, perror. footprint.
Qed.

Lemma afl_protect_footprint w : emits startup_event (__afl_protect w).
Proof. unfold __afl_protect, setenv, mmap. footprint. Qed.

Lemma discard_output_footprint w fd : emits startup_event (discard_output w fd).
Proof.
  unfold discard_output, fopen_devnull, fd_alloc, dup2, fclose, close_fd.
  footprint.
Qed.

Lemma dup_and_close_stderr_footprint w : emits startup_event (dup_and_close_stderr w).
Proof.
  unfold dup_and_close_stderr, dup, fd_alloc, fdopen.
  footprint; apply discard_output_footprint.
Qed.

Lemma main_init_footprint w : emits startup_event (main_init w).
Proof.
  unfold main_init, maybe_duplicate_stderr, maybe_close_fd_mask, close_stdout,
    getenv, freopen_stderr, close_fd, fprintf, printf.
  footprint;
    first [apply dup_and_close_stderr_footprint | apply discard_output_footprint].
Qed.

Lemma ExecuteFiles_from_footprint w args i :
  emits batch_event (ExecuteFiles_from w i args).
Proof.
  revert i. induction args as [|path rest IH]; intros i; simpl.
  - apply emits_ret.
  - unfold printf, LLVMFuzzerTestOneInput, fd_alloc. footprint; apply IH.
Qed.

Lemma persistent_loop_footprint w N fuel k :
  emits loop_event (persistent_loop w N k fuel).
Proof.
  revert k. induction fuel as [|fuel IH]; intros k; simpl.
  - apply emits_out_of_fuel.
  - unfold __afl_persistent_loop, LLVMFuzzerTestOneInput. footprint; apply IH.
Qed.

(** ** State properties kept by a piece of code *)

Section Preserves.
Context (I : state -> Prop).

Lemma preserves_ret {A} (a : A) : preserves I (ret a).
Proof. by intros st. Qed.

Lemma preserves_get : preserves I get.
Proof. by intros st. Qed.

Lemma preserves_emit e : preserves I (emit e).
Proof. by intros st. Qed.

Lemma preserves_abort {A} : preserves I (@abort A).
Proof. by intros st. Qed.

Lemma preserves_modify g : (forall st, I st -> I (g st)) -> preserves I (modify g).
Proof. intros H st. apply H. Qed.

Lemma preserves_bind {A B} (m : M A) (f : A -> M B) :
  preserves I m -> (forall a, preserves I (f a)) -> preserves I (bind m f).
Proof.
  intros Hm Hf st Hst. unfold bind.
  destruct (res (m st)) as [a| |]; simpl; try by apply Hm.
  apply Hf. by apply Hm.
Qed.

Lemma preserves_when c m : preserves I m -> preserves I (when c m).
Proof. intros H. destruct c; [done | apply preserves_ret]. Qed.
End Preserves.

Ltac preserves_step :=
  match goal with
  | |- preserves _ (bind _ _) => apply preserves_bind; [| intros ?]
  | |- preserves _ (ret _) => apply preserves_ret
  | |- preserves _ get => apply preserves_get
  | |- preserves _ (emit _) => apply preserves_emit
  | |- preserves _ abort => apply preserves_abort
  | |- preserves _ (when _ _) => apply preserves_when
  | |- preserves _ (modify _) => apply preserves_modify; intros ? ?
  | |- preserves _ (if ?c then _ else _) => destruct c
  | |- preserves _ (match ?x with _ => _ end) => destruct x
  end.

(** The start-up touches one environment variable only. *)
Lemma startup_environ w name v :
  name <> "__AFL_DEFER_FORKSRV" ->
  preserves (fun st => environ st !! name = v) (startup w).
Proof.
  intros Hne.
  unfold startup, constructors, __decide_deferred_forkserver, __afl_protect,
    main_init, maybe_duplicate_stderr, maybe_close_fd_mask, close_stdout,
    dup_and_close_stderr, discard_output, getenv, unsetenv, setenv, mmap,
    freopen_stderr, fopen_devnull, dup, dup2, fclose, close_fd, fd_alloc,
    fdopen, fprintf, printf, perror.
  repeat preserves_step;
    cbn [environ set_environ set_area_ptr set_output_file set_fds set_report_fd
           set_dummy_map];
    rewrite ?lookup_insert_ne, ?lookup_delete_ne by done; done.
Qed.

(** ** The run of the process, cut at the point where [main] looks at
    its arguments *)

Lemma startup_footprint w : emits startup_event (startup w).
Proof.
  unfold startup, constructors. footprint.
  - apply decide_deferred_forkserver_footprint.
  - apply afl_protect_footprint.
  - apply main_init_footprint.
Qed.

Lemma process_startup w fuel :
  process w fuel = bind (startup w) (main_run w fuel) (initial_state w).
Proof. unfold process, startup, main. by rewrite bind_assoc. Qed.

(** When the start-up returns the argument vector [argv], the process
    continues with [main_run] on it. *)
Lemma process_continues w fuel argv :
  res (startup w (initial_state w)) = Ret argv ->
  let s := startup w (initial_state w) in
  let r := main_run w fuel argv (final s) in
  process w fuel = Outcome (events s ++ events r) (final r) (res r).
Proof. intros H. rewrite process_startup. by apply bind_Ret. Qed.

(** When the start-up aborts, so does the process, having made only
    start-up calls. *)
Lemma process_stops w fuel :
  (forall argv, res (startup w (initial_state w)) <> Ret argv) ->
  events (process w fuel) = events (startup w (initial_state w)) /\
  forall x, res (process w fuel) <> Ret x.
Proof.
  intros H. rewrite process_startup.
  destruct (bind_stop (startup w) (main_run w fuel) (initial_state w) H)
    as (He & _ & Hr).
  by split.
Qed.

(** ** The decision [main] takes on its arguments *)

Lemma main_run_mode w fuel argv st :
  main_run w fuel argv st =
    match main_mode argv with
    | PersistentLoop N deprecated =>
        (when deprecated (printf (MsgDeprecated (argv !! 0%nat) N)) >>
         main_persistent w fuel argv N) st
    | BatchFile => main_batch w argv st
    end.
Proof.
  unfold main_run, main_mode.
  destruct (Z.of_nat (length argv) =? 2) eqn:Hc; simpl.
  - destruct (Ascii.eqb _ _); simpl.
    + by rewrite bind_ret_l.
    + destruct (0 <? atoi _); simpl; [done |].
      apply Z.eqb_eq in Hc. by rewrite Hc.
  - destruct (1 <? Z.of_nat (length argv)); simpl; [done |].
    by rewrite bind_ret_l.
Qed.

(** ** The persistent loop *)

(** A [read] never delivers more bytes than its result says. *)
Lemma take_read_bytes a count :
  take (Z.to_nat (read_result a count)) (read_bytes a count) = read_bytes a count.
Proof.
  destruct a as [|bytes]; simpl; [done |].
  rewrite Nat2Z.id. apply firstn_all.
Qed.

Lemma persistent_loop_continue w N k fuel st :
  persistent_loop_answer w N k = true ->
  persistent_loop w N k (S fuel) st =
    let o := persistent_loop w N (S k) fuel st in
    Outcome (iteration_events w N k ++ events o) (final o) (res o).
Proof.
  intros H. unfold iteration_events. simpl.
  unfold __afl_persistent_loop, LLVMFuzzerTestOneInput, bind, emit, ret, when.
  simpl. rewrite H. simpl.
  destruct (0 <? read_result (stdin_answer w k) 1024000); simpl.
  - rewrite take_read_bytes. by destruct (res (persistent_loop w N (S k) fuel st)).
  - by destruct (res (persistent_loop w N (S k) fuel st)).
Qed.

Lemma persistent_loop_leave w N k fuel st :
  persistent_loop_answer w N k = false ->
  persistent_loop w N k (S fuel) st = Outcome [EPersistentLoop N false] st (Ret tt).
Proof.
  intros H. simpl. unfold __afl_persistent_loop, bind, emit, ret. simpl.
  by rewrite H.
Qed.

(** The loop ends at the first consultation that answers false. *)
Lemma persistent_loop_stops w N n : forall k fuel st,
  (forall j, (j < n)%nat -> persistent_loop_answer w N (k + j) = true) ->
  persistent_loop_answer w N (k + n) = false ->
  (n < fuel)%nat ->
  persistent_loop w N k fuel st =
    Outcome (concat (map (iteration_events w N) (seq k n)) ++ [EPersistentLoop N false])
            st (Ret tt).
Proof.
  induction n as [|n IH]; intros k fuel st Htrue Hfalse Hfuel;
    destruct fuel as [|fuel]; try lia.
  - rewrite Nat.add_0_r in Hfalse. by rewrite persistent_loop_leave.
  - rewrite persistent_loop_continue.
    2: { specialize (Htrue O). rewrite Nat.add_0_r in Htrue. apply Htrue. lia. }
    rewrite (IH (S k) fuel st); simpl.
    + by rewrite app_assoc.
    + intros j Hj. simpl. rewrite <- Nat.add_succ_r. apply Htrue. lia.
    + simpl. by rewrite <- Nat.add_succ_r.
    + lia.
Qed.

(** While the primitive answers true the loop goes on, whatever the reads
    return. *)
Lemma persistent_loop_goes_on w N fuel : forall k st,
  (forall j, (j < fuel)%nat -> persistent_loop_answer w N (k + j) = true) ->
  persistent_loop w N k fuel st =
    Outcome (concat (map (iteration_events w N) (seq k fuel))) st Running.
Proof.
  induction fuel as [|fuel IH]; intros k st Htrue.
  - done.
  - rewrite persistent_loop_continue.
    2: { specialize (Htrue O). rewrite Nat.add_0_r in Htrue. apply Htrue. lia. }
    rewrite (IH (S k) st); simpl; [done |].
    intros j Hj. simpl. rewrite <- Nat.add_succ_r. apply Htrue. lia.
Qed.

Lemma persistent_loop_final w N fuel : forall k st,
  final (persistent_loop w N k fuel st) = st.
Proof.
  induction fuel as [|fuel IH]; intros k st; [done |].
  destruct (persistent_loop_answer w N k) eqn:H.
  - rewrite persistent_loop_continue by done. simpl. apply IH.
  - by rewrite persistent_loop_leave.
Qed.

(** The loop never aborts. *)
Lemma persistent_loop_res w N fuel : forall k st,
  res (persistent_loop w N k fuel st) <> Aborted.
Proof.
  induction fuel as [|fuel IH]; intros k st; [done |].
  destruct (persistent_loop_answer w N k) eqn:H.
  - rewrite persistent_loop_continue by done. simpl. apply IH.
  - by rewrite persistent_loop_leave.
Qed.

(** ** [main] from the assertion to the end *)

Lemma main_persistent_rejects w fuel argv N st :
  N <= 0 ->
  main_persistent w fuel argv N st = Outcome [EAssertFail "N > 0"; EAbort] st Aborted.
Proof.
  intros H. unfold main_persistent, assert.
  replace (0 <? N) with false by (symmetry; apply Z.ltb_ge; lia).
  done.
Qed.

Lemma loop_then_closing w fuel argv N st :
  (persistent_loop w N 0 fuel >>
   emit (EPrint Stdout (MsgSuccessfullyExecuted (argv !! 0%nat))) >> ret 0) st =
    let l := persistent_loop w N 0 fuel st in
    Outcome (events l ++ closing_events argv (res l)) st (closing_result (res l)).
Proof.
  pose proof (persistent_loop_final w N fuel O st) as Hf.
  unfold bind at 1. cbn zeta.
  destruct (persistent_loop w N 0 fuel st) as [ev fin [[]| |]];
    cbn [events final res closing_events closing_result] in *; subst;
    by rewrite ?app_nil_r.
Qed.

Lemma main_persistent_attached w fuel argv N st :
  0 < N ->
  environ st !! "AFL_DISABLE_LLVM_INSTRUMENTATION" = None ->
  main_persistent w fuel argv N st =
    let l := persistent_loop w N 0 fuel (released w st) in
    Outcome ([EMunmap (__afl_area_ptr st) MAX_DUMMY_SIZE; EManualInit NULL;
              EPrint Stderr (MsgDummyMapNowAt (manual_init_area_ptr w));
              ETestOneInput (take 1 dummy_input)]
             ++ events l ++ closing_events argv (res l))
            (released w st) (closing_result (res l)).
Proof.
  intros HN Henv. unfold main_persistent, assert.
  replace (0 <? N) with true by (symmetry; apply Z.ltb_lt; lia).
  unfold getenv, munmap, __afl_manual_init, fprintf, LLVMFuzzerTestOneInput, printf.
  run. rewrite Henv, (bool_decide_eq_true_2 _ eq_refl). unfold when at 1. run.
  unfold released.
  destruct (bool_decide (dummy_map st = Some (__afl_area_ptr st)));
    unfold when; run; rewrite loop_then_closing; done.
Qed.

Lemma main_persistent_detached w fuel argv N st v :
  0 < N ->
  environ st !! "AFL_DISABLE_LLVM_INSTRUMENTATION" = Some v ->
  main_persistent w fuel argv N st =
    let l := persistent_loop w N 0 fuel st in
    Outcome ([EPrint Stderr (MsgDummyMapNowAt (__afl_area_ptr st));
              ETestOneInput (take 1 dummy_input)]
             ++ events l ++ closing_events argv (res l))
            st (closing_result (res l)).
Proof.
  intros HN Henv. unfold main_persistent, assert.
  replace (0 <? N) with true by (symmetry; apply Z.ltb_lt; lia).
  unfold getenv, fprintf, LLVMFuzzerTestOneInput, printf.
  run. rewrite Henv, bool_decide_eq_false_2 by done. unfold when. run.
  by rewrite loop_then_closing.
Qed.

(** The payload of the warm-up call: one byte, the first ['#'] of the
    persistent-mode marker. *)
Lemma warm_up_payload : take 1 dummy_input = [x23].
Proof. reflexivity. Qed.

(** ** The files given as arguments *)

Lemma set_fds_same st : set_fds (fds st) st = st.
Proof. by destruct st. Qed.

Lemma set_fds_set_fds t t' st : set_fds t (set_fds t' st) = set_fds t st.
Proof. done. Qed.

(** With a null buffer no read returns more than zero; with a buffer the
    read is the one the file answers. *)
Lemma read_into_yield ok a count :
  (if 0 <? read_result (read_into ok a count) count
   then Some (read_bytes (read_into ok a count) count) else None) =
  (if 0 <? read_result (if ok then a else ReadError) count
   then Some (read_bytes (if ok then a else ReadError) count) else None).
Proof.
  destruct ok; [done |]. unfold read_into.
  destruct a as [|bytes]; cbn [read_bytes read_result]; [done |].
  destruct (take (Z.to_nat count) bytes) as [|b l] eqn:E;
    cbn [read_result]; [by rewrite E | done].
Qed.

(** One turn of the loop on an argument that opens: a descriptor is
    allocated for the file and stays allocated. *)
Lemma ExecuteFiles_from_open w i path rest a st :
  open_answer w i path = Some a ->
  let st1 := set_fds (fd_store (fds st) (lowest_free (fds st))
                        (Some (ReadOnlyFile path))) st in
  let a' := read_into (malloc_ok w) a (MAX_FILE w) in
  let length := read_result a' (MAX_FILE w) in
  let o := ExecuteFiles_from w (S i) rest st1 in
  ExecuteFiles_from w i (path :: rest) st =
    Outcome ([EOpen path true; EReadFile path (MAX_FILE w) length] ++
             (if 0 <? length
              then [EPrint Stdout (MsgReading length path);
                    ETestOneInput (read_bytes a' (MAX_FILE w));
                    EPrint Stdout MsgExecutionSuccessful]
              else []) ++ events o)
            (final o) (res o).
Proof.
  intros Ho. cbn [ExecuteFiles_from]. rewrite Ho.
  unfold fd_alloc, printf, LLVMFuzzerTestOneInput. run. cbn zeta.
  destruct (0 <? read_result _ _); unfold when; run; [| done].
  by rewrite take_read_bytes.
Qed.

Lemma ExecuteFiles_from_closed w i path rest st :
  open_answer w i path = None ->
  let o := ExecuteFiles_from w (S i) rest st in
  ExecuteFiles_from w i (path :: rest) st =
    Outcome (EOpen path false :: events o) (final o) (res o).
Proof. intros Ho. cbn [ExecuteFiles_from]. rewrite Ho. by run. Qed.

(** The loop over the files returns, calls the target once per argument
    that yields, and changes nothing but the descriptor table. *)
Lemma ExecuteFiles_from_run w paths : forall i st,
  let o := ExecuteFiles_from w i paths st in
  res o = Ret tt /\ final o = set_fds (fds (final o)) st /\
  List.filter is_target (events o) = batch_invocations w i paths.
Proof.
  induction paths as [|path rest IH]; intros i st.
  { cbn. by rewrite set_fds_same. }
  cbn [batch_invocations]. unfold file_yield.
  destruct (open_answer w i path) as [a|] eqn:Ho.
  - rewrite (ExecuteFiles_from_open w i path rest a st Ho). cbn zeta.
    cbn [events final res].
    match goal with |- context [ExecuteFiles_from w (S i) rest ?s] =>
      destruct (IH (S i) s) as (Hres & Hfin & Hev) end.
    split; [exact Hres |]. split.
    + rewrite Hfin at 1. by rewrite set_fds_set_fds.
    + rewrite <- read_into_yield.
      destruct (0 <? read_result _ _);
        cbn [List.filter is_target app]; by rewrite Hev.
  - rewrite (ExecuteFiles_from_closed w i path rest st Ho). cbn zeta.
    cbn [events final res List.filter is_target].
    destruct (IH (S i) st) as (Hres & Hfin & Hev). by rewrite Hev.
Qed.

(** The globals of the driver are as they were after the loop over the
    files. *)
Lemma ExecuteFiles_from_globals w paths i st :
  let o := ExecuteFiles_from w i paths st in
  dummy_map (final o) = dummy_map st /\
  __afl_area_ptr (final o) = __afl_area_ptr st /\
  environ (final o) = environ st /\
  output_file (final o) = output_file st.
Proof.
  cbn zeta. destruct (ExecuteFiles_from_run w paths i st) as (_ & Hfin & _).
  revert Hfin. generalize (final (ExecuteFiles_from w i paths st)).
  intros f Hfin. by rewrite Hfin.
Qed.

Lemma ExecuteFilesOnyByOne_run w argv st :
  let b := ExecuteFiles_from w 1 (drop 1 argv) st in
  ExecuteFilesOnyByOne w argv st = Outcome (events b) (final b) (Ret 0).
Proof.
  destruct (ExecuteFiles_from_run w (drop 1 argv) 1%nat st) as (Hres & _ & _).
  unfold ExecuteFilesOnyByOne. rewrite (bind_Ret _ _ _ tt Hres).
  cbn [events final res ret]. by rewrite app_nil_r.
Qed.

Lemma main_batch_run w argv st :
  let st' := released w (set_sharedmem_fuzzing 0 st) in
  let b := ExecuteFiles_from w 1 (drop 1 argv) st' in
  main_batch w argv st =
    Outcome ([EMunmap (__afl_area_ptr st) MAX_DUMMY_SIZE; EManualInit NULL] ++ events b)
            (final b) (Ret 0).
Proof.
  unfold main_batch, munmap, __afl_manual_init, released.
  run. cbn [set_sharedmem_fuzzing dummy_map __afl_area_ptr].
  destruct (bool_decide (dummy_map st = Some (__afl_area_ptr st)));
    unfold when; run; by rewrite ExecuteFilesOnyByOne_run.
Qed.

(** ** The process in each mode *)

Lemma forallb_weaken (P Q : event -> bool) (l : list event) :
  (forall e, P e = true -> Q e = true) ->
  forallb P l = true -> forallb Q l = true.
Proof.
  intros HPQ. induction l as [|e l IH]; simpl; [done |].
  intros [He Hl]%andb_true_iff. rewrite (HPQ e He). by apply IH.
Qed.

Lemma process_persistent w fuel argv N deprecated :
  res (startup w (initial_state w)) = Ret argv ->
  main_mode argv = PersistentLoop N deprecated ->
  let s := startup w (initial_state w) in
  let p := main_persistent w fuel argv N (final s) in
  process w fuel =
    Outcome (events s ++
             (if deprecated then [EPrint Stdout (MsgDeprecated (argv !! 0%nat) N)]
              else []) ++ events p)
            (final p) (res p).
Proof.
  intros Hs Hm. rewrite (process_continues w fuel argv Hs). cbn zeta.
  rewrite main_run_mode, Hm. unfold printf.
  destruct deprecated; unfold when; by run.
Qed.

Lemma process_batch w fuel argv :
  res (startup w (initial_state w)) = Ret argv ->
  main_mode argv = BatchFile ->
  let s := startup w (initial_state w) in
  let st' := released w (set_sharedmem_fuzzing 0 (final s)) in
  let b := ExecuteFiles_from w 1 (drop 1 argv) st' in
  process w fuel =
    Outcome (events s ++
             [EMunmap (__afl_area_ptr (final s)) MAX_DUMMY_SIZE; EManualInit NULL] ++
             events b)
            (final b) (Ret 0).
Proof.
  intros Hs Hm. rewrite (process_continues w fuel argv Hs). cbn zeta.
  by rewrite main_run_mode, Hm, main_batch_run.
Qed.

(** * The claims *)

(** C9. For every argument vector with exactly one argument that begins
    with ['-'] and whose remainder [atoi] reads as a value that is not
    positive, the process makes the calls of the start-up, then fails the
    assertion [N > 0] and aborts; it opens no file, never consults the
    loop primitive and never calls the target. *)
Theorem dash_argument_without_positive_budget_aborts w fuel prog rest :
  res (startup w (initial_state w)) = Ret [prog; String "-" rest] ->
  atoi rest <= 0 ->
  main_mode [prog; String "-" rest] = PersistentLoop (atoi rest) false /\
  events (process w fuel) =
    events (startup w (initial_state w)) ++ [EAssertFail "N > 0"; EAbort] /\
  res (process w fuel) = Aborted /\
  forallb (fun e => negb (is_open e || is_consult e || is_target e))
    (events (process w fuel)) = true.
Proof.
  intros Hs HN.
  assert (Hm : main_mode [prog; String "-" rest] = PersistentLoop (atoi rest) false)
    by reflexivity.
  rewrite (process_persistent w fuel _ _ _ Hs Hm). cbn zeta.
  rewrite main_persistent_rejects by done. cbn [events res app].
  repeat split.
  rewrite forallb_app. apply andb_true_iff. split; [| done].
  apply (forallb_weaken startup_event); [by intros [] | apply startup_footprint].
Qed.

Lemma dash_argument_without_positive_budget_aborts_witness :
  res (startup world_dash_x (initial_state world_dash_x)) = Ret ["prog"; "-x"] /\
  atoi "x" <= 0 /\
  res (process world_dash_x 5) = Aborted.
Proof.
  assert (Hs : res (startup world_dash_x (initial_state world_dash_x))
               = Ret ["prog"; "-x"]) by (vm_compute; reflexivity).
  assert (HN : atoi "x" <= 0) by (vm_compute; discriminate).
  split; [exact Hs |]. split; [exact HN |].
  exact (proj1 (proj2 (proj2
    (dash_argument_without_positive_budget_aborts _ 5%nat "prog" "x" Hs HN)))).
Defined.

Ltac split_forallb :=
  rewrite !forallb_app, ?andb_true_iff;
  repeat match goal with |- _ /\ _ => split end.

Lemma closing_events_quiet (P : event -> bool) argv r :
  (forall to m, P (EPrint to m) = true) ->
  forallb P (closing_events argv r) = true.
Proof. intros H. destruct r; simpl; by rewrite ?H. Qed.

(** The loop begins by consulting the primitive. *)
Lemma persistent_loop_first w N k fuel st :
  exists rest,
    events (persistent_loop w N k (S fuel) st) =
      EPersistentLoop N (persistent_loop_answer w N k) :: rest.
Proof.
  destruct (persistent_loop_answer w N k) eqn:H.
  - rewrite persistent_loop_continue by done. by eexists.
  - rewrite persistent_loop_leave by done. by eexists.
Qed.

(** C10. When [AFL_DISABLE_LLVM_INSTRUMENTATION] is set in the
    environment of the process and the arguments select the persistent
    loop with a positive budget, the process never calls [munmap] and
    never calls [__afl_manual_init]; after the start-up it prints the
    address of the map, makes the warm-up call and runs the loop, and the
    pointer [__afl_area_ptr] and the placeholder mapping end as the
    start-up left them. *)
Theorem uninstrumented_run_keeps_placeholder w fuel argv N deprecated v :
  initial_environ w !! "AFL_DISABLE_LLVM_INSTRUMENTATION" = Some v ->
  res (startup w (initial_state w)) = Ret argv ->
  main_mode argv = PersistentLoop N deprecated ->
  0 < N ->
  let s := startup w (initial_state w) in
  let l := persistent_loop w N 0 fuel (final s) in
  events (process w fuel) =
    events s ++
    (if deprecated then [EPrint Stdout (MsgDeprecated (argv !! 0%nat) N)] else []) ++
    [EPrint Stderr (MsgDummyMapNowAt (__afl_area_ptr (final s)));
     ETestOneInput (take 1 dummy_input)] ++
    events l ++ closing_events argv (res l) /\
  forallb keeps_map (events (process w fuel)) = true /\
  __afl_area_ptr (final (process w fuel)) = __afl_area_ptr (final s) /\
  dummy_map (final (process w fuel)) = dummy_map (final s).
Proof.
  intros Henv Hs Hm HN. cbn zeta.
  assert (Henv' : environ (final (startup w (initial_state w)))
                    !! "AFL_DISABLE_LLVM_INSTRUMENTATION" = Some v)
    by (by apply (startup_environ w)).
  rewrite (process_persistent w fuel argv N deprecated Hs Hm). cbn zeta.
  rewrite (main_persistent_detached w fuel argv N _ v HN Henv').
  cbn [events final res]. repeat split.
  split_forallb.
  - apply (forallb_weaken startup_event); [by intros [] | apply startup_footprint].
  - by destruct deprecated.
  - done.
  - apply (forallb_weaken loop_event); [by intros [] | apply persistent_loop_footprint].
  - by apply closing_events_quiet.
Qed.

Lemma uninstrumented_run_keeps_placeholder_witness :
  initial_environ world_uninstrumented !! "AFL_DISABLE_LLVM_INSTRUMENTATION" = Some "1" /\
  res (startup world_uninstrumented (initial_state world_uninstrumented))
    = Ret ["prog"; "-3"] /\
  main_mode ["prog"; "-3"] = PersistentLoop 3 false /\
  0 < 3 /\
  forallb keeps_map (events (process world_uninstrumented 10)) = true /\
  dummy_map (final (process world_uninstrumented 10)) = Some 65536.
Proof.
  assert (He : initial_environ world_uninstrumented
                 !! "AFL_DISABLE_LLVM_INSTRUMENTATION" = Some "1")
    by (vm_compute; reflexivity).
  assert (Hs : res (startup world_uninstrumented (initial_state world_uninstrumented))
               = Ret ["prog"; "-3"]) by (vm_compute; reflexivity).
  assert (Hm : main_mode ["prog"; "-3"] = PersistentLoop 3 false)
    by (vm_compute; reflexivity).
  assert (HN : 0 < 3) by lia.
  destruct (uninstrumented_run_keeps_placeholder
              world_uninstrumented 10 _ _ _ _ He Hs Hm HN) as (_ & Hk & _ & Hd).
  split; [exact He |]. split; [exact Hs |]. split; [exact Hm |].
  split; [exact HN |]. split; [exact Hk |].
  rewrite Hd. vm_compute. reflexivity.
Defined.

(** C4. When the arguments select the persistent loop with a positive
    budget [N], the run has the form [pre], then the warm-up call of the
    target on the single byte ['#'], then the first consultation of the
    loop primitive [__afl_persistent_loop(N)], where [pre] contains no
    call of the target and no consultation of the primitive. *)
Theorem warm_up_once_before_first_consultation w fuel argv N deprecated :
  res (startup w (initial_state w)) = Ret argv ->
  main_mode argv = PersistentLoop N deprecated ->
  0 < N ->
  exists pre post,
    events (process w (S fuel)) =
      pre ++ ETestOneInput [x23]
          :: EPersistentLoop N (persistent_loop_answer w N 0) :: post /\
    forallb before_fuzzing pre = true /\
    length [x23] = 1%nat.
Proof.
  intros Hs Hm HN.
  rewrite (process_persistent w (S fuel) argv N deprecated Hs Hm). cbn zeta.
  set (s := startup w (initial_state w)).
  assert (Hpre : forallb before_fuzzing
            (events s ++
             (if deprecated then [EPrint Stdout (MsgDeprecated (argv !! 0%nat) N)]
              else [])) = true).
  { rewrite forallb_app. apply andb_true_iff. split.
    - apply (forallb_weaken startup_event); [by intros [] | apply startup_footprint].
    - by destruct deprecated. }
  destruct (environ (final s) !! "AFL_DISABLE_LLVM_INSTRUMENTATION") as [v|] eqn:He.
  - rewrite (main_persistent_detached w (S fuel) argv N _ v HN He).
    cbn [events final res].
    destruct (persistent_loop_first w N 0 fuel (final s)) as [rest ->].
    exists ((events s ++
              (if deprecated then [EPrint Stdout (MsgDeprecated (argv !! 0%nat) N)]
               else [])) ++
            [EPrint Stderr (MsgDummyMapNowAt (__afl_area_ptr (final s)))]),
      (rest ++ closing_events argv (res (persistent_loop w N 0 (S fuel) (final s)))).
    split; [| split; [| done]].
    + rewrite warm_up_payload, <- !app_assoc. reflexivity.
    + rewrite forallb_app, Hpre. reflexivity.
  - rewrite (main_persistent_attached w (S fuel) argv N _ HN He).
    cbn [events final res].
    destruct (persistent_loop_first w N 0 fuel (released w (final s))) as [rest ->].
    exists ((events s ++
              (if deprecated then [EPrint Stdout (MsgDeprecated (argv !! 0%nat) N)]
               else [])) ++
            [EMunmap (__afl_area_ptr (final s)) MAX_DUMMY_SIZE; EManualInit NULL;
             EPrint Stderr (MsgDummyMapNowAt (manual_init_area_ptr w))]),
      (rest ++ closing_events argv
                 (res (persistent_loop w N 0 (S fuel) (released w (final s))))).
    split; [| split; [| done]].
    + rewrite warm_up_payload, <- !app_assoc. reflexivity.
    + rewrite forallb_app, Hpre. reflexivity.
Qed.

Lemma warm_up_once_before_first_consultation_witness :
  res (startup world_budget_3 (initial_state world_budget_3)) = Ret ["prog"; "-3"] /\
  main_mode ["prog"; "-3"] = PersistentLoop 3 false /\
  0 < 3 /\
  exists pre post,
    events (process world_budget_3 1) =
      pre ++ ETestOneInput [x23] :: EPersistentLoop 3 true :: post /\
    forallb before_fuzzing pre = true /\
    length [x23] = 1%nat.
Proof.
  assert (Hs : res (startup world_budget_3 (initial_state world_budget_3))
               = Ret ["prog"; "-3"]) by (vm_compute; reflexivity).
  assert (Hm : main_mode ["prog"; "-3"] = PersistentLoop 3 false)
    by (vm_compute; reflexivity).
  assert (HN : 0 < 3) by lia.
  split; [exact Hs |]. split; [exact Hm |]. split; [exact HN |].
  exact (warm_up_once_before_first_consultation world_budget_3 0 _ _ _ Hs Hm HN).
Defined.

Lemma persistent_loop_left w N fuel : forall k st,
  res (persistent_loop w N k fuel st) = Ret tt ->
  exists n, (n < fuel)%nat /\ persistent_loop_answer w N (k + n) = false.
Proof.
  induction fuel as [|fuel IH]; intros k st; [done |].
  destruct (persistent_loop_answer w N k) eqn:H.
  - rewrite persistent_loop_continue by done. cbn [res]. intros Hres.
    destruct (IH (S k) st Hres) as (n & Hn & Hfalse).
    exists (S n). split; [lia |]. by rewrite Nat.add_succ_r.
  - intros _. exists O. split; [lia |]. by rewrite Nat.add_0_r.
Qed.

(** C7. In the persistent loop, an iteration whose read from descriptor
    0 returns zero or a negative value consists of the consultation and
    the read only, without a call of the target; as long as the loop
    primitive answers true the loop runs iteration after iteration,
    whatever the reads return; it ends at the first consultation that
    answers false, and it ends only if some consultation answered
    false. *)
Theorem empty_read_skips_and_only_the_primitive_ends_the_loop w N st :
  (forall k, read_result (stdin_answer w k) 1024000 <= 0 ->
     iteration_events w N k =
       [EPersistentLoop N true;
        EReadStdin 1024000 (read_result (stdin_answer w k) 1024000)]) /\
  (forall fuel,
     (forall j, (j < fuel)%nat -> persistent_loop_answer w N j = true) ->
     persistent_loop w N 0 fuel st =
       Outcome (concat (map (iteration_events w N) (seq 0 fuel))) st Running) /\
  (forall n fuel,
     (forall j, (j < n)%nat -> persistent_loop_answer w N j = true) ->
     persistent_loop_answer w N n = false ->
     (n < fuel)%nat ->
     persistent_loop w N 0 fuel st =
       Outcome (concat (map (iteration_events w N) (seq 0 n))
                ++ [EPersistentLoop N false]) st (Ret tt)) /\
  (forall fuel,
     res (persistent_loop w N 0 fuel st) = Ret tt ->
     exists n, (n < fuel)%nat /\ persistent_loop_answer w N n = false).
Proof.
  split; [| split; [| split]].
  - intros k Hr. unfold iteration_events. cbn zeta.
    replace (0 <? read_result (stdin_answer w k) 1024000) with false
      by (symmetry; apply Z.ltb_ge; lia).
    done.
  - intros fuel H. by apply persistent_loop_goes_on.
  - intros n fuel Htrue Hfalse Hn. by apply persistent_loop_stops.
  - intros fuel Hres. by apply (persistent_loop_left w N fuel O st).
Qed.

(** In the sample world with budget 3: the second read returns nothing
    and its iteration has no call of the target, yet the loop goes on to
    a third iteration and stops when the primitive declines. *)
Lemma empty_read_skips_and_only_the_primitive_ends_the_loop_witness :
  read_result (stdin_answer world_budget_3 1) 1024000 <= 0 /\
  iteration_events world_budget_3 3 1 = [EPersistentLoop 3 true; EReadStdin 1024000 0] /\
  persistent_loop world_budget_3 3 0 10 (initial_state world_budget_3) =
    Outcome [EPersistentLoop 3 true; EReadStdin 1024000 1; ETestOneInput [x41];
             EPersistentLoop 3 true; EReadStdin 1024000 0;
             EPersistentLoop 3 true; EReadStdin 1024000 1; ETestOneInput [x41];
             EPersistentLoop 3 false]
            (initial_state world_budget_3) (Ret tt).
Proof.
  pose proof (empty_read_skips_and_only_the_primitive_ends_the_loop
                world_budget_3 3 (initial_state world_budget_3))
    as (Hskip & _ & Hstop & _).
  assert (Hr : read_result (stdin_answer world_budget_3 1) 1024000 <= 0)
    by (vm_compute; discriminate).
  split; [exact Hr |]. split; [exact (Hskip 1%nat Hr) |].
  apply (Hstop 3%nat 10%nat).
  - intros j Hj. destruct j as [|[|[|j]]]; [reflexivity .. | lia].
  - reflexivity.
  - lia.
Defined.

(** ** Files *)

Lemma file_yield_data w i path bytes :
  open_answer w i path = Some (ReadData bytes) ->
  malloc_ok w = true ->
  bytes <> [] ->
  0 < MAX_FILE w ->
  file_yield w i path = Some (take (Z.to_nat (MAX_FILE w)) bytes).
Proof.
  intros Ho Hm Hb HM. unfold file_yield. rewrite Ho, Hm. cbn [read_result read_bytes].
  destruct bytes as [|b bytes]; [done |].
  destruct (Z.to_nat (MAX_FILE w)) as [|n] eqn:Hn; [lia |].
  cbn [take length]. case_match; [done |].
  apply Z.ltb_ge in H. lia.
Qed.

(** C6. When the arguments select the files, the process returns 0, and
    the calls of the target it made are exactly one call per argument
    that opens and yields more than zero bytes, with the bytes read, in
    the order of the arguments; an argument that does not open yields
    nothing, and an argument that opens on at least one byte yields its
    first [MAX_FILE] bytes. *)
Theorem batch_runs_each_readable_file_once w fuel argv :
  res (startup w (initial_state w)) = Ret argv ->
  main_mode argv = BatchFile ->
  res (process w fuel) = Ret 0 /\
  List.filter is_target (events (process w fuel)) =
    batch_invocations w 1 (drop 1 argv) /\
  (forall i path, open_answer w i path = None -> file_yield w i path = None) /\
  (forall i path bytes,
     open_answer w i path = Some (ReadData bytes) ->
     malloc_ok w = true -> bytes <> [] -> 0 < MAX_FILE w ->
     file_yield w i path = Some (take (Z.to_nat (MAX_FILE w)) bytes)).
Proof.
  intros Hs Hm. rewrite (process_batch w fuel argv Hs Hm). cbn [events res].
  split; [done |]. split; [| split].
  - rewrite !List.filter_app. cbn [List.filter is_target app].
    match goal with |- context [ExecuteFiles_from w 1 ?l ?s] =>
      destruct (ExecuteFiles_from_run w l 1%nat s) as (_ & _ & ->) end.
    replace (List.filter is_target (events (startup w (initial_state w))))
      with (@nil event); [done |].
    pose proof (startup_footprint w (initial_state w)) as Hf.
    induction (events (startup w (initial_state w))) as [|e l IH]; [done |].
    cbn [forallb] in Hf. apply andb_true_iff in Hf as [He Hl].
    cbn [List.filter]. destruct e; try discriminate; by apply IH.
  - intros i path Ho. unfold file_yield. by rewrite Ho.
  - apply file_yield_data.
Qed.

Lemma batch_runs_each_readable_file_once_witness :
  res (startup world_batch (initial_state world_batch))
    = Ret ["prog"; "a.bin"; "b.bin"] /\
  main_mode ["prog"; "a.bin"; "b.bin"] = BatchFile /\
  res (process world_batch 0) = Ret 0 /\
  List.filter is_target (events (process world_batch 0)) = [ETestOneInput [x48; x49]].
Proof.
  assert (Hs : res (startup world_batch (initial_state world_batch))
               = Ret ["prog"; "a.bin"; "b.bin"]) by (vm_compute; reflexivity).
  assert (Hm : main_mode ["prog"; "a.bin"; "b.bin"] = BatchFile)
    by (vm_compute; reflexivity).
  destruct (batch_runs_each_readable_file_once world_batch 0 _ Hs Hm)
    as (Hr & Hf & _).
  split; [exact Hs |]. split; [exact Hm |]. split; [exact Hr |].
  rewrite Hf. vm_compute. reflexivity.
Defined.

(** ** The placeholder map and the deferred-initialization signal *)

Lemma keeps_map_no_signal l :
  forallb keeps_map l = true -> existsb is_manual_init l = false.
Proof.
  induction l as [|e l IH]; [done |]. cbn [forallb existsb].
  intros [He Hl]%andb_true_iff. rewrite (IH Hl). by destruct e.
Qed.

Lemma startup_keeps_map w st : forallb keeps_map (events (startup w st)) = true.
Proof.
  apply (forallb_weaken startup_event); [by intros [] | apply startup_footprint].
Qed.

Lemma signal_in_the_middle pre e p post :
  existsb is_manual_init (pre ++ e :: EManualInit p :: post) = true.
Proof.
  rewrite existsb_app. cbn [existsb is_manual_init].
  by destruct (existsb is_manual_init pre), (is_manual_init e).
Qed.

(** C1, as the code has it.  The deferred-initialization signal is sent
    exactly on these paths: the start-up returns and the arguments select
    the files, or they select the persistent loop with a positive budget
    and [AFL_DISABLE_LLVM_INSTRUMENTATION] is not set.  On each of them
    the placeholder map is unmapped exactly once and the signal is sent
    exactly once, and the unmapping is the call immediately before the
    signal: the run is [pre], then [munmap(__afl_area_ptr,
    MAX_DUMMY_SIZE)] on the pointer the start-up left, then
    [__afl_manual_init()], which finds the pointer null, then [post],
    with neither call in [pre] or [post]. *)
Theorem placeholder_unmapped_once_just_before_signal w fuel :
  existsb is_manual_init (events (process w fuel)) = signalling_path w /\
  (signalling_path w = true ->
   exists pre post,
     events (process w fuel) =
       pre ++ EMunmap (__afl_area_ptr (final (startup w (initial_state w))))
                      MAX_DUMMY_SIZE
           :: EManualInit NULL :: post /\
     forallb keeps_map pre = true /\
     forallb keeps_map post = true).
Proof.
  pose proof (startup_keeps_map w (initial_state w)) as Hstart.
  unfold signalling_path. cbn zeta.
  destruct (res (startup w (initial_state w))) as [argv| |] eqn:Hs.
  - destruct (main_mode argv) as [N deprecated|] eqn:Hm.
    + rewrite (process_persistent w fuel argv N deprecated Hs Hm).
      cbn zeta. cbn [events].
      assert (Hdep : forallb keeps_map
                (if deprecated then [EPrint Stdout (MsgDeprecated (argv !! 0%nat) N)]
                 else []) = true) by (by destruct deprecated).
      destruct (Z.le_gt_cases N 0) as [HN|HN].
      { replace (0 <? N) with false by (symmetry; apply Z.ltb_ge; lia).
        rewrite main_persistent_rejects by done. cbn [andb events].
        split; [| done]. apply keeps_map_no_signal. split_forallb; done. }
      replace (0 <? N) with true by (symmetry; apply Z.ltb_lt; lia).
      cbn [andb].
      destruct (environ (final (startup w (initial_state w)))
                  !! "AFL_DISABLE_LLVM_INSTRUMENTATION") as [v|] eqn:He.
      { rewrite (main_persistent_detached w fuel argv N _ v) by (done || lia).
        rewrite bool_decide_eq_false_2 by done.
        split; [| done]. apply keeps_map_no_signal.
        cbn [events]. split_forallb; try done.
        - apply (forallb_weaken loop_event);
            [by intros [] | apply persistent_loop_footprint].
        - by apply closing_events_quiet. }
      rewrite (main_persistent_attached w fuel argv N) by (done || lia).
      rewrite (bool_decide_eq_true_2 _ eq_refl).
      cbn [events].
      match goal with |- context [?a ++ ?b ++ [?m; ?i; ?p; ?t] ++ ?l] =>
        assert (Hev : a ++ b ++ [m; i; p; t] ++ l = (a ++ b) ++ m :: i :: p :: t :: l)
          by (by rewrite <- app_assoc)
      end.
      rewrite Hev. split; [apply signal_in_the_middle |]. intros _.
      eexists _, _. split; [reflexivity |]. split.
      * by split_forallb.
      * cbn [forallb]. split_forallb; try done.
        -- apply (forallb_weaken loop_event);
             [by intros [] | apply persistent_loop_footprint].
        -- by apply closing_events_quiet.
    + rewrite (process_batch w fuel argv Hs Hm). cbn [events app].
      split; [apply signal_in_the_middle |]. intros _.
      eexists _, _. split; [reflexivity |]. split; [done |].
      apply (forallb_weaken batch_event);
        [by intros [] | apply ExecuteFiles_from_footprint].
  - destruct (process_stops w fuel) as [He _]; [by rewrite Hs |].
    rewrite He. split; [by apply keeps_map_no_signal | done].
  - destruct (process_stops w fuel) as [He _]; [by rewrite Hs |].
    rewrite He. split; [by apply keeps_map_no_signal | done].
Qed.

Lemma placeholder_unmapped_once_just_before_signal_witness :
  signalling_path world_budget_3 = true /\
  existsb is_manual_init (events (process world_budget_3 1)) = true /\
  exists pre post,
    events (process world_budget_3 1) =
      pre ++ EMunmap (__afl_area_ptr
                        (final (startup world_budget_3 (initial_state world_budget_3))))
                     MAX_DUMMY_SIZE
          :: EManualInit NULL :: post /\
    forallb keeps_map pre = true /\
    forallb keeps_map post = true.
Proof.
  assert (H : signalling_path world_budget_3 = true) by (vm_compute; reflexivity).
  destruct (placeholder_unmapped_once_just_before_signal world_budget_3 1)
    as [Hsig Hrun].
  split; [exact H |]. split; [by rewrite Hsig |]. exact (Hrun H).
Defined.

(** C1, as stated, fails: in the sample run with budget 3 the signal is
    sent and the map is unmapped once, but the [munmap] is the fifth call
    and [__afl_manual_init] the sixth, so the unmapping does not follow
    the signal. *)
Lemma unmap_after_signal_counterexample :
  events (process world_budget_3 1) !! 4%nat = Some (EMunmap 65536 256000) /\
  events (process world_budget_3 1) !! 5%nat = Some (EManualInit 0) /\
  count is_manual_init (events (process world_budget_3 1)) = 1%nat /\
  count is_munmap (events (process world_budget_3 1)) = 1%nat /\
  unmap_follows_signal false (events (process world_budget_3 1)) = false.
Proof. vm_compute. repeat split; reflexivity. Qed.

(** ** The placeholder mapping *)

Lemma to_uint64_idemp z : to_uint64 (to_uint64 z) = to_uint64 z.
Proof. unfold to_uint64. by rewrite Z.mod_mod. Qed.

Lemma afl_protect_run w st :
  let o := __afl_protect w st in
  res o = Ret tt /\
  List.filter is_mmap (events o) = attempts w strategies /\
  __afl_area_ptr (final o) = first_success w strategies.
Proof.
  unfold __afl_protect, strategies, setenv, mmap. cbn [attempts first_success].
  change (to_uint64 (-1)) with MAP_FAILED.
  pose proof (to_uint64_idemp (mmap_answer w map_at_0x10000_noreplace)) as E1.
  pose proof (to_uint64_idemp (mmap_answer w map_at_0x10000)) as E2.
  pose proof (to_uint64_idemp (mmap_answer w map_anywhere)) as E3.
  revert E1 E2 E3.
  generalize (to_uint64 (mmap_answer w map_at_0x10000_noreplace)).
  generalize (to_uint64 (mmap_answer w map_at_0x10000)).
  generalize (to_uint64 (mmap_answer w map_anywhere)).
  intros r3 r2 r1 E1 E2 E3. cbn zeta.
  destruct (setenv_fails w);
  destruct (r1 =? MAP_FAILED) eqn:H1;
  destruct (r2 =? MAP_FAILED) eqn:H2;
  destruct (r3 =? MAP_FAILED) eqn:H3;
  repeat first
    [ progress run
    | progress cbn [__afl_area_ptr set_area_ptr set_dummy_map set_environ negb
                      List.filter is_mmap events final res]
    | rewrite E1 | rewrite E2 | rewrite E3
    | rewrite H1 | rewrite H2 | rewrite H3
    | progress cbn [when] ];
  try (apply Z.eqb_eq in H3; subst r3); done.
Qed.

(** C5, as the code has it.  [__afl_protect] tries the three mappings in
    order (the fixed address 0x10000 without replacing, the same address
    as a hint, any address) up to the first that succeeds, and leaves in
    [__afl_area_ptr] the result of the last call it made: the address of
    the first mapping that succeeded, or, when all three failed, the
    failure value [MAP_FAILED], which is not the null pointer. *)
Theorem protect_tries_three_mappings_in_order w st :
  res (__afl_protect w st) = Ret tt /\
  List.filter is_mmap (events (__afl_protect w st)) = attempts w strategies /\
  __afl_area_ptr (final (__afl_protect w st)) = first_success w strategies /\
  ((forall req, In req strategies -> to_uint64 (mmap_answer w req) = MAP_FAILED) ->
   length (attempts w strategies) = 3%nat /\
   __afl_area_ptr (final (__afl_protect w st)) = MAP_FAILED /\
   __afl_area_ptr (final (__afl_protect w st)) <> NULL).
Proof.
  destruct (afl_protect_run w st) as (Hres & Hev & Hptr).
  split; [exact Hres |]. split; [exact Hev |]. split; [exact Hptr |].
  intros Hall. rewrite Hptr. unfold strategies in *.
  cbn [attempts first_success length].
  rewrite !Hall by (cbn [In]; auto).
  by rewrite !Z.eqb_refl.
Qed.

Lemma protect_tries_three_mappings_in_order_witness :
  (forall req, In req strategies ->
     to_uint64 (mmap_answer no_memory_world req) = MAP_FAILED) /\
  length (attempts no_memory_world strategies) = 3%nat /\
  __afl_area_ptr (final (__afl_protect no_memory_world
                           (initial_state no_memory_world))) = MAP_FAILED.
Proof.
  assert (H : forall req, In req strategies ->
                to_uint64 (mmap_answer no_memory_world req) = MAP_FAILED)
    by (intros req _; reflexivity).
  destruct (protect_tries_three_mappings_in_order
              no_memory_world (initial_state no_memory_world))
    as (_ & _ & _ & Hall).
  destruct (Hall H) as (Hlen & Hfail & _).
  split; [exact H |]. split; [exact Hlen | exact Hfail].
Defined.

(** C5, as stated, fails: where no [mmap] succeeds, the three calls are
    made and the region pointer is left at [MAP_FAILED], all bits set, not
    null. *)
Lemma region_pointer_left_null_counterexample :
  List.filter is_mmap
    (events (__afl_protect no_memory_world (initial_state no_memory_world))) =
    [EMmap map_at_0x10000_noreplace MAP_FAILED;
     EMmap map_at_0x10000 MAP_FAILED;
     EMmap map_anywhere MAP_FAILED] /\
  __afl_area_ptr (final (__afl_protect no_memory_world
                           (initial_state no_memory_world)))
    = 18446744073709551615 /\
  __afl_area_ptr (final (__afl_protect no_memory_world
                           (initial_state no_memory_world))) <> NULL.
Proof. vm_compute. repeat split; discriminate. Qed.

(** ** The deferred-forkserver variable *)

(** [__decide_deferred_forkserver] on its own does clear the variable
    when the override is set, and aborts when it cannot. *)
Lemma decide_deferred_forkserver_clears w st v :
  environ st !! "AFL_DRIVER_DONT_DEFER" = Some v ->
  let o := __decide_deferred_forkserver w st in
  if unsetenv_fails w then res o = Aborted
  else res o = Ret tt /\ environ (final o) !! "__AFL_DEFER_FORKSRV" = None.
Proof.
  intros He. unfold __decide_deferred_forkserver, getenv, unsetenv, perror.
  cbn zeta. run. rewrite He, bool_decide_eq_true_2 by done. cbn [when].
  destruct (unsetenv_fails w); run; cbn [when negb Z.eqb]; run; [done |].
  split; [done |]. cbn [environ set_environ]. apply lookup_delete_eq.
Qed.

(** The mapping calls of [__afl_protect] leave the environment alone. *)
Lemma afl_protect_environ w st :
  environ (final (__afl_protect w st)) =
    if setenv_fails w then environ st
    else <["__AFL_DEFER_FORKSRV" := "1"]> (environ st).
Proof.
  unfold __afl_protect, setenv, mmap.
  change (to_uint64 (-1)) with MAP_FAILED.
  pose proof (to_uint64_idemp (mmap_answer w map_at_0x10000_noreplace)) as E1.
  pose proof (to_uint64_idemp (mmap_answer w map_at_0x10000)) as E2.
  revert E1 E2.
  generalize (to_uint64 (mmap_answer w map_at_0x10000_noreplace)).
  generalize (to_uint64 (mmap_answer w map_at_0x10000)).
  generalize (to_uint64 (mmap_answer w map_anywhere)).
  intros r3 r2 r1 E1 E2.
  destruct (setenv_fails w);
  destruct (r1 =? MAP_FAILED) eqn:H1;
  destruct (r2 =? MAP_FAILED) eqn:H2;
  destruct (r3 =? MAP_FAILED) eqn:H3;
  repeat first
    [ progress run
    | progress cbn [__afl_area_ptr set_area_ptr set_dummy_map set_environ negb
                      environ events final res]
    | rewrite E1 | rewrite E2
    | rewrite H1 | rewrite H2 | rewrite H3
    | progress cbn [when] ];
  done.
Qed.

(** C8, on the code.  With [AFL_DRIVER_DONT_DEFER] set and [unsetenv] and
    [setenv] succeeding, the constructors return, their first call is
    [unsetenv("__AFL_DEFER_FORKSRV")] and their second
    [setenv("__AFL_DEFER_FORKSRV", "1", 1)], and at their end the variable
    is set to ["1"]: the constructor of priority 1 undoes what the
    constructor of priority 0 did. *)
Theorem dont_defer_is_undone_by_protect w v :
  initial_environ w !! "AFL_DRIVER_DONT_DEFER" = Some v ->
  unsetenv_fails w = false ->
  setenv_fails w = false ->
  res (constructors w (initial_state w)) = Ret tt /\
  (exists rest,
     events (constructors w (initial_state w)) =
       EUnsetenv "__AFL_DEFER_FORKSRV" 0
       :: ESetenv "__AFL_DEFER_FORKSRV" "1" 0 :: rest) /\
  environ (final (constructors w (initial_state w))) !! "__AFL_DEFER_FORKSRV"
    = Some "1".
Proof.
  intros He Hu Hs. unfold constructors.
  assert (Hd : __decide_deferred_forkserver w (initial_state w) =
               Outcome [EUnsetenv "__AFL_DEFER_FORKSRV" 0]
                 (set_environ (delete "__AFL_DEFER_FORKSRV" (initial_environ w))
                    (initial_state w))
                 (Ret tt)).
  { unfold __decide_deferred_forkserver, getenv, unsetenv, perror.
    rewrite Hu. run. cbn [environ initial_state].
    rewrite He, bool_decide_eq_true_2 by done. cbn [when]. run.
    cbn [when negb Z.eqb]. done. }
  rewrite (bind_Ret _ _ _ tt) by (by rewrite Hd).
  rewrite Hd. cbn [events final res app].
  destruct (afl_protect_run w
              (set_environ (delete "__AFL_DEFER_FORKSRV" (initial_environ w))
                 (initial_state w))) as (Hres & _ & _).
  split; [exact Hres |]. split.
  - unfold __afl_protect, setenv. rewrite Hs. run. by eexists.
  - rewrite afl_protect_environ, Hs. apply lookup_insert_eq.
Qed.

Lemma dont_defer_is_undone_by_protect_witness :
  initial_environ world_dont_defer !! "AFL_DRIVER_DONT_DEFER" = Some "1" /\
  unsetenv_fails world_dont_defer = false /\
  setenv_fails world_dont_defer = false /\
  environ (final (constructors world_dont_defer (initial_state world_dont_defer)))
    !! "__AFL_DEFER_FORKSRV" = Some "1".
Proof.
  assert (He : initial_environ world_dont_defer !! "AFL_DRIVER_DONT_DEFER" = Some "1")
    by (vm_compute; reflexivity).
  split; [exact He |]. split; [reflexivity |]. split; [reflexivity |].
  exact (proj2 (proj2
    (dont_defer_is_undone_by_protect world_dont_defer "1" He eq_refl eq_refl))).
Defined.

(** ** Descriptors *)

Lemma lowest_free_is_free t : mjoin (t !! lowest_free t) = None.
Proof. induction t as [|[s|] t IH]; done. Qed.

Lemma fd_store_same t n v : mjoin (fd_store t n v !! n) = v.
Proof.
  unfold fd_store. case_decide as Hn.
  - by rewrite list_lookup_insert_eq.
  - rewrite lookup_app_r by lia. rewrite lookup_app_r; rewrite length_replicate; [| lia].
    by rewrite Nat.sub_diag.
Qed.

Lemma fd_store_other t n v i : i <> n -> mjoin (fd_store t n v !! i) = mjoin (t !! i).
Proof.
  intros Hi. unfold fd_store. case_decide as Hn.
  - by rewrite list_lookup_insert_ne.
  - destruct (decide (i < length t)%nat) as [Hlt|Hge].
    + by rewrite lookup_app_l.
    + rewrite (lookup_ge_None_2 t i) by lia.
      rewrite lookup_app_r by lia.
      destruct (decide (i - length t < n - length t)%nat) as [Hr|Hr].
      * rewrite lookup_app_l by (by rewrite length_replicate).
        by rewrite lookup_replicate_2.
      * rewrite lookup_app_r; rewrite length_replicate; [| lia].
        destruct (i - length t - (n - length t))%nat as [|j] eqn:Hj; [lia | done].
Qed.

Lemma fd_lookup_nat t n : fd_lookup t (Z.of_nat n) = mjoin (t !! n).
Proof.
  unfold fd_lookup. rewrite Nat2Z.id.
  by replace (Z.of_nat n <? 0) with false by (symmetry; apply Z.ltb_ge; lia).
Qed.

Lemma fd_lookup_open t fd s :
  fd_lookup t fd = Some s -> exists n, fd = Z.of_nat n.
Proof.
  unfold fd_lookup. destruct (fd <? 0) eqn:H; [done |].
  apply Z.ltb_ge in H. intros _. exists (Z.to_nat fd). lia.
Qed.

(** [dup] of an open descriptor: the lowest free descriptor now refers
    to the same sink, and no other descriptor changes. *)
Lemma dup_run {B} fd s (f : Z -> M B) st :
  fd_lookup (fds st) fd = Some s ->
  bind (dup fd) f st =
    let n := lowest_free (fds st) in
    let st' := set_fds (fd_store (fds st) n (Some s)) st in
    Outcome (EDup fd (Z.of_nat n) :: events (f (Z.of_nat n) st'))
            (final (f (Z.of_nat n) st')) (res (f (Z.of_nat n) st')).
Proof. intros H. unfold dup, fd_alloc. run. rewrite H. by run. Qed.

(** ** Redirection of descriptors *)

Lemma insert_None_lookup (t : list (option sink)) n :
  mjoin (<[n := None]> t !! n) = None.
Proof.
  destruct (decide (n < length t)%nat) as [H|H].
  - by rewrite list_lookup_insert_eq.
  - rewrite list_insert_ge by lia. by rewrite lookup_ge_None_2 by lia.
Qed.

Lemma fd_lookup_negative t j : j < 0 -> fd_lookup t j = None.
Proof.
  intros H. unfold fd_lookup.
  by replace (j <? 0) with true by (symmetry; apply Z.ltb_lt; lia).
Qed.

(** The run of [discard_output] when the null sink opens: it opens on
    the lowest free descriptor [n], is copied onto [fd] unless [fd] is
    [n] itself or negative, and [n] is closed again. *)
Lemma discard_output_run w st fd :
  devnull_ok w = true ->
  let n := lowest_free (fds st) in
  let t1 := fd_store (fds st) n (Some DevNull) in
  let t2 := if (Z.of_nat n =? fd) || (fd <? 0) then t1
            else fd_store t1 (Z.to_nat fd) (Some DevNull) in
  discard_output w fd st =
    Outcome [EFopenNull (Some (Z.of_nat n)); EDup2 (Z.of_nat n) fd;
             EFclose (Z.of_nat n)]
            (set_fds (<[n := None]> t2) st) (Ret tt).
Proof.
  intros Hnull. cbn zeta.
  unfold discard_output, fopen_devnull, fd_alloc, dup2, fclose, close_fd.
  rewrite Hnull. run. cbn [fds set_fds].
  rewrite fd_lookup_nat, fd_store_same.
  replace (Z.of_nat (lowest_free (fds st)) <? 0) with false
    by (symmetry; apply Z.ltb_ge; lia).
  destruct ((Z.of_nat (lowest_free (fds st)) =? fd) || (fd <? 0)); run;
    cbn [fds set_fds]; by rewrite Nat2Z.id.
Qed.

(** With the hook linked the function does what its comment says: the
    duplicate refers to the old stream, the sanitizer is told of it, and
    the original descriptor ends on the null sink. *)
Lemma dup_and_close_stderr_discards w st fd s :
  __sanitizer_set_report_fd w = true ->
  fdopen_ok w = true ->
  devnull_ok w = true ->
  output_file st = Some fd ->
  fd_lookup (fds st) fd = Some s ->
  fd_lookup (fds st) 0 <> None ->
  let o := dup_and_close_stderr w st in
  let n := Z.of_nat (lowest_free (fds st)) in
  res o = Ret tt /\
  report_fd (final o) = Some n /\
  fd_lookup (fds (final o)) n = Some s /\
  fd_lookup (fds (final o)) fd = Some DevNull.
Proof.
  intros Hsan Hfdopen Hnull Hout Hopen Hzero. cbn zeta.
  destruct (fd_lookup_open _ _ _ Hopen) as [i ->].
  rewrite fd_lookup_nat in Hopen. change 0 with (Z.of_nat 0) in Hzero.
  rewrite fd_lookup_nat in Hzero.
  remember (fds st) as t eqn:Et.
  remember (lowest_free t) as n1 eqn:En1.
  remember (fd_store t n1 (Some s)) as t1 eqn:Et1.
  remember (lowest_free t1) as n2 eqn:En2.
  assert (Hf1 : mjoin (t !! n1) = None) by (subst n1; apply lowest_free_is_free).
  assert (Hf2 : mjoin (t1 !! n2) = None) by (subst n2; apply lowest_free_is_free).
  assert (Hn1 : n1 <> O) by (intros ->; by apply Hzero).
  assert (Hi1 : i <> n1) by (intros ->; congruence).
  assert (Hi2 : i <> n2).
  { intros ->. rewrite Et1, fd_store_other in Hf2 by done. congruence. }
  assert (H12 : n1 <> n2).
  { intros <-. by rewrite Et1, fd_store_same in Hf2. }
  assert (Hrun : dup_and_close_stderr w st =
            Outcome [EDup (Z.of_nat i) (Z.of_nat n1); EFdopen (Z.of_nat n1) true;
                     ESetReportFd (Z.of_nat n1); EFopenNull (Some (Z.of_nat n2));
                     EDup2 (Z.of_nat n2) (Z.of_nat i); EFclose (Z.of_nat n2)]
              (set_fds (<[n2 := None]> (fd_store (fd_store t1 n2 (Some DevNull)) i
                                          (Some DevNull)))
                 (set_report_fd (Some (Z.of_nat n1)) (set_fds t1 st)))
              (Ret tt)).
  { unfold dup_and_close_stderr, fdopen. run. rewrite Hout.
    rewrite (dup_run (Z.of_nat i) s) by (by rewrite <- Et, fd_lookup_nat).
    cbn zeta. rewrite <- Et, <- En1, <- Et1. cbn [events final res].
    replace (Z.of_nat n1 <=? 0) with false by (symmetry; apply Z.leb_gt; lia).
    run. rewrite Hfdopen, Hsan. cbn [negb]. run.
    rewrite discard_output_run by done. cbn zeta.
    cbn [events final res fds set_fds set_report_fd]. rewrite <- En2.
    replace (Z.of_nat n2 =? Z.of_nat i) with false by (symmetry; apply Z.eqb_neq; lia).
    replace (Z.of_nat i <? 0) with false by (symmetry; apply Z.ltb_ge; lia).
    cbn [orb]. by rewrite Nat2Z.id. }
  rewrite Hrun. cbn [final res fds set_fds set_report_fd report_fd].
  rewrite !fd_lookup_nat.
  split; [done |]. split; [done |]. split.
  - rewrite list_lookup_insert_ne by done.
    rewrite !fd_store_other by done. rewrite Et1. apply fd_store_same.
  - rewrite list_lookup_insert_ne by done. apply fd_store_same.
Qed.

(** C3, on the code.  When [__sanitizer_set_report_fd] is not linked,
    [dup_and_close_stderr] duplicates the descriptor of [output_file] and
    returns at line 199 (or aborts before): it never opens the null sink
    and never calls [dup2], and the original descriptor still refers to
    what it referred to. *)
Theorem stderr_kept_when_no_sanitizer w st fd s :
  __sanitizer_set_report_fd w = false ->
  output_file st = Some fd ->
  fd_lookup (fds st) fd = Some s ->
  (exists r, events (dup_and_close_stderr w st) !! 0%nat = Some (EDup fd r)) /\
  forallb (fun e => negb (is_discard e)) (events (dup_and_close_stderr w st)) = true /\
  fd_lookup (fds (final (dup_and_close_stderr w st))) fd = Some s.
Proof.
  intros Hsan Hout Hopen.
  assert (Hkept : fd_lookup (fd_store (fds st) (lowest_free (fds st)) (Some s)) fd
                  = Some s).
  { destruct (fd_lookup_open _ _ _ Hopen) as [n ->].
    rewrite fd_lookup_nat in *. rewrite fd_store_other; [done |].
    intros Heq. by rewrite Heq, lowest_free_is_free in Hopen. }
  unfold dup_and_close_stderr, fdopen. run. rewrite Hout.
  rewrite (dup_run fd s) by done. cbn zeta. cbn [events final res].
  rewrite Hsan. cbn [negb].
  destruct (Z.of_nat (lowest_free (fds st)) <=? 0); run.
  - split; [by eexists |]. by split.
  - destruct (fdopen_ok w); cbn [negb]; run; (split; [by eexists |]); by split.
Qed.

Lemma stderr_kept_when_no_sanitizer_witness :
  __sanitizer_set_report_fd world_mask_2 = false /\
  output_file (set_output_file (Some 2) (initial_state world_mask_2)) = Some 2 /\
  fd_lookup (fds (set_output_file (Some 2) (initial_state world_mask_2))) 2
    = Some (Inherited 2) /\
  fd_lookup
    (fds (final (dup_and_close_stderr world_mask_2
                   (set_output_file (Some 2) (initial_state world_mask_2))))) 2
    = Some (Inherited 2).
Proof.
  split; [reflexivity |]. split; [reflexivity |]. split; [reflexivity |].
  exact (proj2 (proj2
    (stderr_kept_when_no_sanitizer world_mask_2
       (set_output_file (Some 2) (initial_state world_mask_2)) 2 (Inherited 2)
       eq_refl eq_refl eq_refl))).
Defined.

(** The whole process with [AFL_DRIVER_CLOSE_FD_MASK=2]: without the
    sanitizer hook descriptor 2 is duplicated and kept; with it,
    descriptor 2 ends on the null sink and the duplicate on the old
    stream. *)
Example mask_2_without_and_with_sanitizer :
  fd_lookup (fds (final (process world_mask_2 1))) 2 = Some (Inherited 2) /\
  List.filter (fun e => is_discard e) (events (process world_mask_2 1)) = [] /\
  fd_lookup
    (fds (final (process
       (sample_world {["AFL_DRIVER_CLOSE_FD_MASK" := "2"]} ["prog"] true) 1))) 2
    = Some DevNull /\
  fd_lookup
    (fds (final (process
       (sample_world {["AFL_DRIVER_CLOSE_FD_MASK" := "2"]} ["prog"] true) 1))) 3
    = Some (Inherited 2).
Proof. vm_compute. repeat split; reflexivity. Qed.

(** ** Reading numerals *)

Lemma digit_of_digit_char d :
  (d < 10)%nat -> digit_of (digit_char d) = Some (Z.of_nat d).
Proof. intros H. do 10 (destruct d as [|d]; [reflexivity |]). lia. Qed.

Lemma read_digits_numeral ds :
  Forall (fun d => (d < 10)%nat) ds ->
  forall acc,
    read_digits (numeral ds) acc = acc * 10 ^ Z.of_nat (length ds) + decimal_value ds.
Proof.
  induction 1 as [|d ds Hd _ IH]; intros acc.
  - cbn [numeral read_digits length decimal_value]. change (10 ^ Z.of_nat 0) with 1. lia.
  - cbn [numeral read_digits length decimal_value].
    rewrite (digit_of_digit_char d Hd), IH.
    rewrite Nat2Z.inj_succ, Z.pow_succ_r by lia. lia.
Qed.

Lemma decimal_value_nonneg ds : 0 <= decimal_value ds.
Proof.
  induction ds as [|d ds IH]; cbn [decimal_value]; [lia |].
  assert (0 <= 10 ^ Z.of_nat (length ds)) by (apply Z.pow_nonneg; lia). nia.
Qed.

Lemma strtol_numeral ds :
  Forall (fun d => (d < 10)%nat) ds ->
  strtol (numeral ds) = clamp_long (read_digits (numeral ds) 0).
Proof.
  destruct 1 as [|d ds Hd _]; [reflexivity |].
  do 10 (destruct d as [|d]; [reflexivity |]). lia.
Qed.

(** [atoi] reads a numeral as the integer it denotes. *)
Lemma atoi_numeral ds :
  Forall (fun d => (d < 10)%nat) ds ->
  decimal_value ds <= INT_MAX ->
  atoi (numeral ds) = decimal_value ds.
Proof.
  intros Hds Hmax. unfold atoi. rewrite strtol_numeral by done.
  rewrite read_digits_numeral by done.
  pose proof (decimal_value_nonneg ds) as H0.
  unfold INT_MAX in Hmax.
  replace (0 * 10 ^ Z.of_nat (length ds) + decimal_value ds) with (decimal_value ds)
    by lia.
  unfold clamp_long, LONG_MIN, LONG_MAX, to_int.
  rewrite Z.min_r, Z.max_r by lia.
  rewrite Z.mod_small; lia.
Qed.

Lemma numeral_not_dash d ds :
  (d < 10)%nat -> char0 (numeral (d :: ds)) <> "-"%char.
Proof. intros H. do 10 (destruct d as [|d]; [discriminate |]). lia. Qed.

(** ** The arguments *)

Lemma main_mode_dash prog rest :
  main_mode [prog; String "-" rest] = PersistentLoop (atoi rest) false.
Proof. reflexivity. Qed.

Lemma main_mode_bare prog a :
  char0 a <> "-"%char ->
  main_mode [prog; a] =
    if 0 <? atoi a then PersistentLoop (atoi a) true else BatchFile.
Proof.
  intros H.
  assert (E : main_mode [prog; a] =
              if Ascii.eqb (char0 a) "-" then PersistentLoop (atoi (str_plus1 a)) false
              else if 0 <? atoi a then PersistentLoop (atoi a) true else BatchFile)
    by reflexivity.
  apply Ascii.eqb_neq in H. by rewrite E, H.
Qed.

Lemma main_mode_many argv : (3 <= length argv)%nat -> main_mode argv = BatchFile.
Proof.
  intros H. unfold main_mode.
  replace (Z.of_nat (length argv) =? 2) with false by (symmetry; apply Z.eqb_neq; lia).
  by replace (1 <? Z.of_nat (length argv)) with true by (symmetry; apply Z.ltb_lt; lia).
Qed.

Lemma main_batch_never_loops w argv st :
  res (main_batch w argv st) = Ret 0 /\
  forallb (fun e => negb (is_consult e)) (events (main_batch w argv st)) = true.
Proof.
  rewrite main_batch_run. cbn [events res app forallb is_consult negb andb].
  split; [done |].
  apply (forallb_weaken batch_event); [by intros [] | apply ExecuteFiles_from_footprint].
Qed.

(** Where the specification's reading of the arguments gives a budget,
    the code resolves the same budget. *)
Lemma digit_of_inv c d :
  digit_of c = Some d -> c = digit_char (Z.to_nat d) /\ (Z.to_nat d < 10)%nat.
Proof.
  destruct c as [[] [] [] [] [] [] [] []]; try discriminate;
    intros [= <-]; split; try reflexivity; vm_compute; lia.
Qed.

Lemma digits_of_numeral s : forall ds,
  digits_of s = Some ds -> s = numeral ds /\ Forall (fun d => (d < 10)%nat) ds.
Proof.
  induction s as [|c s IH]; intros ds; cbn [digits_of].
  - by intros [= <-].
  - destruct (digit_of c) as [d|] eqn:Hc; [| done].
    destruct (digits_of s) as [ds'|]; [| done].
    intros [= <-]. destruct (IH ds' eq_refl) as [-> Hds].
    destruct (digit_of_inv c d Hc) as [-> Hd].
    split; [done | by constructor].
Qed.

Lemma atoi_integer_text s n :
  integer_text s = Some n -> n <= INT_MAX -> atoi s = n.
Proof.
  unfold integer_text. destruct s as [|c s]; [done |].
  destruct (digits_of (String c s)) as [ds|] eqn:Hds; [| done].
  intros [= <-] Hmax. destruct (digits_of_numeral _ _ Hds) as [-> Hall].
  by apply atoi_numeral.
Qed.

Lemma specified_mode_bare c t :
  c <> "-"%char ->
  specified_mode [String c t] =
    match integer_text (String c t) with
    | Some n => if 0 <? n then PersistentLoop n true else BatchFile
    | None => BatchFile
    end.
Proof.
  intros Hc. destruct c as [[] [] [] [] [] [] [] []]; try reflexivity.
  by destruct Hc.
Qed.

Lemma specified_budget_is_resolved argv N deprecated :
  specified_mode (drop 1 argv) = PersistentLoop N deprecated ->
  N <= INT_MAX ->
  main_mode argv = PersistentLoop N deprecated.
Proof.
  destruct argv as [|prog [|a [|b rest]]]; cbn [drop]; try done.
  intros Hspec Hmax. destruct a as [|c t]; [done |].
  destruct (Ascii.eqb_spec c "-") as [->|Hc].
  - cbn [specified_mode] in Hspec.
    destruct (integer_text t) as [n|] eqn:Ht; [| done].
    injection Hspec as <- <-.
    by rewrite main_mode_dash, (atoi_integer_text t n).
  - rewrite specified_mode_bare in Hspec by done.
    destruct (integer_text (String c t)) as [n|] eqn:Ht; [| done].
    destruct (0 <? n) eqn:Hn; [| done].
    injection Hspec as <- <-.
    rewrite main_mode_bare by done.
    by rewrite (atoi_integer_text _ n), Hn.
Qed.

(** C2, as the code has it.  For every argument vector: with exactly one
    argument that begins with ['-'], N is what [atoi] reads in the
    remainder (the integer itself when the remainder is a numeral not
    above [INT_MAX]); with exactly one argument that does not begin with
    ['-'] and that [atoi] reads as positive (a bare positive integer in
    particular), N is that value and the deprecation warning is printed;
    with exactly one argument that does not begin with ['-'] and that
    [atoi] does not read as positive, or with two or more arguments, the
    files are executed, the loop primitive is never consulted and the
    result is 0; with no argument N is [INT_MAX]; and a resolved N that is
    not positive fails the assertion and aborts. *)
Theorem arguments_resolve_budget_or_batch w fuel st prog :
  (forall rest,
     main_run w fuel [prog; String "-" rest] st =
       main_persistent w fuel [prog; String "-" rest] (atoi rest) st) /\
  (forall ds,
     Forall (fun d => (d < 10)%nat) ds -> decimal_value ds <= INT_MAX ->
     atoi (numeral ds) = decimal_value ds) /\
  (forall a,
     char0 a <> "-"%char -> 0 < atoi a ->
     main_run w fuel [prog; a] st =
       (printf (MsgDeprecated (Some prog) (atoi a)) >>
        main_persistent w fuel [prog; a] (atoi a)) st) /\
  (forall d ds, (d < 10)%nat -> char0 (numeral (d :: ds)) <> "-"%char) /\
  (forall a,
     char0 a <> "-"%char -> atoi a <= 0 ->
     main_run w fuel [prog; a] st = main_batch w [prog; a] st) /\
  (forall argv,
     (3 <= length argv)%nat -> main_run w fuel argv st = main_batch w argv st) /\
  (forall argv,
     res (main_batch w argv st) = Ret 0 /\
     forallb (fun e => negb (is_consult e)) (events (main_batch w argv st)) = true) /\
  main_run w fuel [] st = main_persistent w fuel [] INT_MAX st /\
  main_run w fuel [prog] st = main_persistent w fuel [prog] INT_MAX st /\
  (forall argv N,
     N <= 0 ->
     main_persistent w fuel argv N st =
       Outcome [EAssertFail "N > 0"; EAbort] st Aborted).
Proof.
  repeat match goal with |- _ /\ _ => split end.
  - intros rest. rewrite main_run_mode, main_mode_dash. cbn [when]. by run.
  - apply atoi_numeral.
  - intros a Ha Hpos. rewrite main_run_mode, main_mode_bare by done.
    by replace (0 <? atoi a) with true by (symmetry; apply Z.ltb_lt; lia).
  - intros d ds. apply numeral_not_dash.
  - intros a Ha Hneg. rewrite main_run_mode, main_mode_bare by done.
    by replace (0 <? atoi a) with false by (symmetry; apply Z.ltb_ge; lia).
  - intros argv Hlen. by rewrite main_run_mode, main_mode_many.
  - intros argv. apply main_batch_never_loops.
  - rewrite main_run_mode. change (main_mode []) with (PersistentLoop INT_MAX false).
    cbn [when]. by run.
  - rewrite main_run_mode. change (main_mode [prog]) with (PersistentLoop INT_MAX false).
    cbn [when]. by run.
  - intros argv N. apply main_persistent_rejects.
Qed.

Lemma arguments_resolve_budget_or_batch_witness :
  Forall (fun d => (d < 10)%nat) [5; 0]%nat /\
  decimal_value [5; 0]%nat <= INT_MAX /\
  atoi "50" = 50 /\
  main_run world_budget_3 1 ["prog"; "-50"] (initial_state world_budget_3) =
    main_persistent world_budget_3 1 ["prog"; "-50"] (atoi "50")
      (initial_state world_budget_3).
Proof.
  destruct (arguments_resolve_budget_or_batch
              world_budget_3 1 (initial_state world_budget_3) "prog")
    as (Hdash & Hnum & _).
  assert (Hds : Forall (fun d => (d < 10)%nat) [5; 0]%nat)
    by (repeat constructor; lia).
  assert (Hmax : decimal_value [5; 0]%nat <= INT_MAX) by (vm_compute; discriminate).
  split; [exact Hds |]. split; [exact Hmax |].
  split; [exact (Hnum [5; 0]%nat Hds Hmax) | exact (Hdash "50")].
Defined.

(** C2, as stated, fails.  The single argument [-x] is neither of the
    form [-<integer>] nor a bare positive integer, so the statement sends
    it to batch mode; the code takes the first branch with N = 0, fails
    the assertion and aborts, without the deferred-initialization signal
    and without opening a file.  And the single argument [12abc] is not
    an integer either, but the code reads 12 from it and enters the
    persistent loop. *)
Lemma other_single_argument_counterexample :
  specified_mode (drop 1 ["prog"; "-x"]) = BatchFile /\
  main_mode ["prog"; "-x"] = PersistentLoop 0 false /\
  res (process world_dash_x 5) = Aborted /\
  count is_open (events (process world_dash_x 5)) = 0%nat /\
  count is_manual_init (events (process world_dash_x 5)) = 0%nat /\
  specified_mode (drop 1 ["prog"; "12abc"]) = BatchFile /\
  main_mode ["prog"; "12abc"] = PersistentLoop 12 true.
Proof. vm_compute. repeat split; reflexivity. Qed.

(** * Further properties of the driver *)

(** ** Redirection of descriptors, continued *)

(** No descriptor other than [fd] is changed by [discard_output],
    however it ends. *)
Lemma discard_output_frame w st fd :
  same_but fd (fds st) (fds (final (discard_output w fd st))).
Proof.
  intros j Hj. destruct (devnull_ok w) eqn:Hnull.
  2: { unfold discard_output, fopen_devnull. rewrite Hnull. by run. }
  rewrite discard_output_run by done. cbn zeta. cbn [final fds set_fds].
  destruct (Z.lt_ge_cases j 0) as [Hneg|Hpos];
    [by rewrite !fd_lookup_negative |].
  assert (Hnat : exists i, j = Z.of_nat i) by (exists (Z.to_nat j); lia).
  destruct Hnat as [i ->]. rewrite !fd_lookup_nat.
  destruct (decide (i = lowest_free (fds st))) as [->|Hn].
  - by rewrite insert_None_lookup, lowest_free_is_free.
  - rewrite list_lookup_insert_ne by done.
    destruct ((Z.of_nat (lowest_free (fds st)) =? fd) || (fd <? 0)) eqn:Hc.
    + by rewrite fd_store_other.
    + apply orb_false_iff in Hc as [_ Hc]. apply Z.ltb_ge in Hc.
      rewrite !fd_store_other; [done | done | lia].
Qed.

Lemma discard_output_sets w st fd :
  devnull_ok w = true ->
  0 <= fd ->
  fd <> Z.of_nat (lowest_free (fds st)) ->
  res (discard_output w fd st) = Ret tt /\
  fd_lookup (fds (final (discard_output w fd st))) fd = Some DevNull.
Proof.
  intros Hnull Hfd Hn. split.
  - by rewrite discard_output_run.
  - rewrite discard_output_run by done. cbn zeta. cbn [final fds set_fds].
    replace (Z.of_nat (lowest_free (fds st)) =? fd) with false
      by (symmetry; apply Z.eqb_neq; lia).
    replace (fd <? 0) with false by (symmetry; apply Z.ltb_ge; lia).
    cbn [orb]. replace fd with (Z.of_nat (Z.to_nat fd)) at 2 by lia.
    rewrite fd_lookup_nat, list_lookup_insert_ne by lia.
    apply fd_store_same.
Qed.

Lemma discard_output_report_fd w st fd :
  report_fd (final (discard_output w fd st)) = report_fd st.
Proof.
  destruct (devnull_ok w) eqn:Hnull.
  - by rewrite discard_output_run.
  - unfold discard_output, fopen_devnull. rewrite Hnull. by run.
Qed.

(** X1. When the null sink can be opened and [fd] is a descriptor other
    than the lowest free one, [discard_output(fd)] returns with [fd] on
    the null sink and every other descriptor as it was: the temporary
    stream is closed again and nothing else is touched. *)
Theorem discard_output_redirects w st fd :
  devnull_ok w = true ->
  0 <= fd ->
  fd <> Z.of_nat (lowest_free (fds st)) ->
  res (discard_output w fd st) = Ret tt /\
  fd_lookup (fds (final (discard_output w fd st))) fd = Some DevNull /\
  same_but fd (fds st) (fds (final (discard_output w fd st))).
Proof.
  intros Hnull Hfd Hn.
  destruct (discard_output_sets w st fd Hnull Hfd Hn) as [Hres Hset].
  split; [exact Hres |]. split; [exact Hset | apply discard_output_frame].
Qed.

Lemma discard_output_redirects_witness :
  devnull_ok world_mask_2 = true /\
  0 <= 1 /\
  1 <> Z.of_nat (lowest_free (fds (initial_state world_mask_2))) /\
  fd_lookup (fds (final (discard_output world_mask_2 1 (initial_state world_mask_2)))) 1
    = Some DevNull.
Proof.
  assert (H0 : 0 <= 1) by lia.
  assert (Hn : 1 <> Z.of_nat (lowest_free (fds (initial_state world_mask_2))))
    by (vm_compute; discriminate).
  split; [reflexivity |]. split; [exact H0 |]. split; [exact Hn |].
  exact (proj1 (proj2
    (discard_output_redirects world_mask_2 (initial_state world_mask_2) 1
       eq_refl H0 Hn))).
Defined.

(** X2. When [fd] is itself the lowest free descriptor (it was closed
    when the process started), the null sink is opened on [fd],
    [dup2(fd, fd)] does nothing and [fclose] closes it again: the
    function returns with [fd] still closed and the table as it was. *)
Theorem discard_output_of_closed_descriptor w st fd :
  devnull_ok w = true ->
  fd = Z.of_nat (lowest_free (fds st)) ->
  discard_output w fd st =
    Outcome [EFopenNull (Some fd); EDup2 fd fd; EFclose fd]
            (final (discard_output w fd st)) (Ret tt) /\
  fd_lookup (fds (final (discard_output w fd st))) fd = None /\
  forall j, fd_lookup (fds (final (discard_output w fd st))) j = fd_lookup (fds st) j.
Proof.
  intros Hnull ->. rewrite discard_output_run by done. cbn zeta.
  cbn [final fds set_fds]. rewrite Z.eqb_refl. cbn [orb].
  split; [done |].
  assert (Hfd : fd_lookup
            (<[lowest_free (fds st) := None]>
               (fd_store (fds st) (lowest_free (fds st)) (Some DevNull)))
            (Z.of_nat (lowest_free (fds st))) = None)
    by (by rewrite fd_lookup_nat, insert_None_lookup).
  split; [exact Hfd |].
  intros j. destruct (decide (j = Z.of_nat (lowest_free (fds st)))) as [->|Hj].
  - by rewrite Hfd, fd_lookup_nat, lowest_free_is_free.
  - pose proof (discard_output_frame w st (Z.of_nat (lowest_free (fds st))) j Hj)
      as Hframe.
    rewrite discard_output_run in Hframe by done. cbn zeta in Hframe.
    cbn [final fds set_fds] in Hframe.
    by rewrite Z.eqb_refl in Hframe.
Qed.

Lemma discard_output_of_closed_descriptor_witness :
  devnull_ok world_stdin_closed = true /\
  0 = Z.of_nat (lowest_free (fds (initial_state world_stdin_closed))) /\
  fd_lookup
    (fds (final (discard_output world_stdin_closed 0
                   (initial_state world_stdin_closed)))) 0 = None.
Proof.
  split; [reflexivity |]. split; [reflexivity |].
  exact (proj1 (proj2
    (discard_output_of_closed_descriptor world_stdin_closed
       (initial_state world_stdin_closed) 0 eq_refl eq_refl))).
Defined.

Lemma lowest_free_zero t : mjoin (t !! 0%nat) = None -> lowest_free t = 0%nat.
Proof. by destruct t as [|[s|] t]. Qed.

(** X3. When descriptor 0 is closed, [dup_and_close_stderr] aborts: either
    the stream's descriptor is closed too and [dup] fails, or [dup]
    succeeds with the lowest free descriptor, which is 0, and the test
    [output_fd <= 0] takes it for a failure.  Nothing is discarded, and
    in the second case descriptor 0 is left on the stream's sink. *)
Theorem close_stderr_aborts_when_stdin_closed w st fd :
  output_file st = Some fd ->
  fd_lookup (fds st) 0 = None ->
  res (dup_and_close_stderr w st) = Aborted /\
  forallb (fun e => negb (is_discard e)) (events (dup_and_close_stderr w st)) = true /\
  (forall s, fd_lookup (fds st) fd = Some s ->
     events (dup_and_close_stderr w st) = [EDup fd 0; EAbort] /\
     fd_lookup (fds (final (dup_and_close_stderr w st))) 0 = Some s).
Proof.
  intros Hout Hzero.
  change 0 with (Z.of_nat 0) in Hzero. rewrite fd_lookup_nat in Hzero.
  pose proof (lowest_free_zero _ Hzero) as Hn.
  unfold dup_and_close_stderr. run. rewrite Hout.
  destruct (fd_lookup (fds st) fd) as [s|] eqn:Hopen.
  - rewrite (dup_run fd s) by done. cbn zeta. rewrite Hn.
    cbn [events final res]. change (Z.of_nat 0 <=? 0) with true. cbn iota. run.
    split; [done |]. split; [done |]. intros s' [= <-]. split; [done |].
    unfold abort. cbn [final fds set_fds]. change 0 with (Z.of_nat 0).
    by rewrite fd_lookup_nat, fd_store_same.
  - unfold dup. run. rewrite Hopen. run.
    change (-1 <=? 0) with true. cbn iota. run.
    split; [done |]. split; [done |]. by intros s.
Qed.

Lemma close_stderr_aborts_when_stdin_closed_witness :
  output_file (set_output_file (Some 2) (initial_state world_stdin_closed)) = Some 2 /\
  fd_lookup (fds (set_output_file (Some 2) (initial_state world_stdin_closed))) 0 = None /\
  res (dup_and_close_stderr world_stdin_closed
         (set_output_file (Some 2) (initial_state world_stdin_closed))) = Aborted.
Proof.
  split; [reflexivity |]. split; [reflexivity |].
  exact (proj1
    (close_stderr_aborts_when_stdin_closed world_stdin_closed
       (set_output_file (Some 2) (initial_state world_stdin_closed)) 2
       eq_refl eq_refl)).
Defined.

(** ** The mask of descriptors to close *)

Lemma land_3_bits x : Z.land x 3 = 0 -> Z.land x 2 = 0 /\ Z.land x 1 = 0.
Proof.
  intros H. split.
  - change 2 with (Z.land 3 2). by rewrite Z.land_assoc, H.
  - change 1 with (Z.land 3 1). by rewrite Z.land_assoc, H.
Qed.

(** X4. [maybe_close_fd_mask] looks at the two low bits of the mask only:
    when the variable is unset, or when [atoi] of its value has neither
    bit set (a value such as 4, or a text that is not a number), it makes
    no call and changes nothing. *)
Theorem close_fd_mask_without_low_bits_does_nothing w st :
  (environ st !! "AFL_DRIVER_CLOSE_FD_MASK" = None \/
   exists s, environ st !! "AFL_DRIVER_CLOSE_FD_MASK" = Some s /\
             Z.land (atoi s) 3 = 0) ->
  maybe_close_fd_mask w st = Outcome [] st (Ret tt).
Proof.
  intros [Hnone|(s & Hs & Hbits)]; unfold maybe_close_fd_mask, getenv; run.
  - by rewrite Hnone.
  - rewrite Hs. destruct (land_3_bits _ Hbits) as [-> ->].
    cbn [Z.eqb negb when]. by run.
Qed.

Lemma close_fd_mask_without_low_bits_does_nothing_witness :
  (environ (initial_state world_mask_4) !! "AFL_DRIVER_CLOSE_FD_MASK" = None \/
   exists s, environ (initial_state world_mask_4) !! "AFL_DRIVER_CLOSE_FD_MASK" = Some s /\
             Z.land (atoi s) 3 = 0) /\
  maybe_close_fd_mask world_mask_4 (initial_state world_mask_4) =
    Outcome [] (initial_state world_mask_4) (Ret tt).
Proof.
  assert (H : environ (initial_state world_mask_4) !! "AFL_DRIVER_CLOSE_FD_MASK" = None \/
              exists s, environ (initial_state world_mask_4)
                          !! "AFL_DRIVER_CLOSE_FD_MASK" = Some s /\
                        Z.land (atoi s) 3 = 0).
  { right. exists "4". split; vm_compute; reflexivity. }
  split; [exact H |].
  exact (close_fd_mask_without_low_bits_does_nothing world_mask_4 _ H).
Defined.

(** X5. With only bit 0 of the mask set, the null sink available and
    descriptor 1 not the lowest free descriptor (it is open, or a lower
    one is free), [maybe_close_fd_mask] puts descriptor 1 on the null
    sink and leaves every other descriptor, standard error included, as
    it was; it makes the three calls of [discard_output] and no [dup]. *)
Theorem close_fd_mask_bit_0_discards_stdout_only w st s :
  environ st !! "AFL_DRIVER_CLOSE_FD_MASK" = Some s ->
  Z.land (atoi s) 2 = 0 ->
  Z.land (atoi s) 1 <> 0 ->
  devnull_ok w = true ->
  Z.of_nat (lowest_free (fds st)) <> 1 ->
  events (maybe_close_fd_mask w st) =
    [EFopenNull (Some (Z.of_nat (lowest_free (fds st))));
     EDup2 (Z.of_nat (lowest_free (fds st))) 1;
     EFclose (Z.of_nat (lowest_free (fds st)))] /\
  res (maybe_close_fd_mask w st) = Ret tt /\
  fd_lookup (fds (final (maybe_close_fd_mask w st))) 1 = Some DevNull /\
  same_but 1 (fds st) (fds (final (maybe_close_fd_mask w st))).
Proof.
  intros Hs Hb1 Hb0 Hnull Hn.
  assert (E : maybe_close_fd_mask w st = discard_output w 1 st).
  { unfold maybe_close_fd_mask, getenv, close_stdout. run. rewrite Hs, Hb1.
    apply Z.eqb_neq in Hb0. rewrite Hb0. cbn [Z.eqb negb when]. by run. }
  rewrite E. split; [by rewrite discard_output_run |].
  split; [by rewrite discard_output_run |]. split.
  - rewrite discard_output_run by done. cbn zeta. cbn [final fds set_fds].
    replace (Z.of_nat (lowest_free (fds st)) =? 1) with false
      by (symmetry; apply Z.eqb_neq; lia).
    cbn [orb Z.ltb Z.compare]. change 1 with (Z.of_nat 1) at 2.
    rewrite fd_lookup_nat. change (Z.to_nat 1) with 1%nat.
    rewrite list_lookup_insert_ne by lia. apply fd_store_same.
  - apply discard_output_frame.
Qed.

Lemma close_fd_mask_bit_0_discards_stdout_only_witness :
  environ (initial_state world_mask_1) !! "AFL_DRIVER_CLOSE_FD_MASK" = Some "1" /\
  Z.land (atoi "1") 2 = 0 /\
  Z.land (atoi "1") 1 <> 0 /\
  devnull_ok world_mask_1 = true /\
  Z.of_nat (lowest_free (fds (initial_state world_mask_1))) <> 1 /\
  fd_lookup (fds (final (maybe_close_fd_mask world_mask_1
                           (initial_state world_mask_1)))) 1 = Some DevNull.
Proof.
  assert (Hs : environ (initial_state world_mask_1) !! "AFL_DRIVER_CLOSE_FD_MASK"
               = Some "1") by (vm_compute; reflexivity).
  assert (Hb0 : Z.land (atoi "1") 1 <> 0) by (vm_compute; discriminate).
  assert (Hn : Z.of_nat (lowest_free (fds (initial_state world_mask_1))) <> 1)
    by (vm_compute; discriminate).
  split; [exact Hs |]. split; [reflexivity |]. split; [exact Hb0 |].
  split; [reflexivity |]. split; [exact Hn |].
  exact (proj1 (proj2 (proj2
    (close_fd_mask_bit_0_discards_stdout_only world_mask_1 _ "1"
       Hs eq_refl Hb0 eq_refl Hn)))).
Defined.

(** ** Duplicating standard error to a file *)

Lemma maybe_duplicate_stderr_run w st path :
  environ st !! "AFL_DRIVER_STDERR_DUPLICATE_FILENAME" = Some path ->
  maybe_duplicate_stderr w st =
    if freopen_ok w path then
      Outcome [EFreopen path true]
        (set_output_file (Some 2)
           (set_fds (fd_store (fds st) 2 (Some (AppendFile path))) st))
        (Ret tt)
    else
      Outcome [EFreopen path false; EPrint Stderr MsgFailedDuplicate; EAbort]
        (set_fds (<[2%nat := None]> (fds st)) st) Aborted.
Proof.
  intros Hs. unfold maybe_duplicate_stderr, getenv, freopen_stderr, close_fd, fprintf.
  run. rewrite Hs. run. destruct (freopen_ok w path); by run.
Qed.

(** X6. When [AFL_DRIVER_STDERR_DUPLICATE_FILENAME] names a file,
    [maybe_duplicate_stderr] touches descriptor 2 only: if the file can
    be opened the function returns with descriptor 2 on that file in
    append mode and [output_file] on that stream; if it cannot, the
    process aborts with descriptor 2 closed. *)
Theorem duplicate_stderr_reopens_descriptor_2 w st path :
  environ st !! "AFL_DRIVER_STDERR_DUPLICATE_FILENAME" = Some path ->
  same_but 2 (fds st) (fds (final (maybe_duplicate_stderr w st))) /\
  if freopen_ok w path then
    res (maybe_duplicate_stderr w st) = Ret tt /\
    fd_lookup (fds (final (maybe_duplicate_stderr w st))) 2 = Some (AppendFile path) /\
    output_file (final (maybe_duplicate_stderr w st)) = Some 2
  else
    res (maybe_duplicate_stderr w st) = Aborted /\
    fd_lookup (fds (final (maybe_duplicate_stderr w st))) 2 = None.
Proof.
  intros Hs. rewrite (maybe_duplicate_stderr_run w st path Hs).
  change 2 with (Z.of_nat 2).
  destruct (freopen_ok w path); cbn [final res fds set_fds set_output_file output_file].
  - split; [| by rewrite fd_lookup_nat, fd_store_same].
    intros j Hj. destruct (Z.lt_ge_cases j 0); [by rewrite !fd_lookup_negative |].
    assert (Hnat : exists i, j = Z.of_nat i) by (exists (Z.to_nat j); lia).
    destruct Hnat as [i ->]. rewrite !fd_lookup_nat, fd_store_other; [done | lia].
  - split; [| by rewrite fd_lookup_nat, insert_None_lookup].
    intros j Hj. destruct (Z.lt_ge_cases j 0); [by rewrite !fd_lookup_negative |].
    assert (Hnat : exists i, j = Z.of_nat i) by (exists (Z.to_nat j); lia).
    destruct Hnat as [i ->]. rewrite !fd_lookup_nat, list_lookup_insert_ne; [done | lia].
Qed.

Lemma duplicate_stderr_reopens_descriptor_2_witness :
  environ (initial_state world_stderr_file) !! "AFL_DRIVER_STDERR_DUPLICATE_FILENAME"
    = Some "err.log" /\
  fd_lookup (fds (final (maybe_duplicate_stderr world_stderr_file
                           (initial_state world_stderr_file)))) 2
    = Some (AppendFile "err.log").
Proof.
  assert (Hs : environ (initial_state world_stderr_file)
                 !! "AFL_DRIVER_STDERR_DUPLICATE_FILENAME" = Some "err.log")
    by (vm_compute; reflexivity).
  split; [exact Hs |].
  exact (proj1 (proj2 (proj2
    (duplicate_stderr_reopens_descriptor_2 world_stderr_file _ "err.log" Hs)))).
Defined.

(** X7. Duplication and closing compose as the comment on [output_file]
    intends.  When [freopen] of the file named by
    [AFL_DRIVER_STDERR_DUPLICATE_FILENAME] succeeds, the sanitizer hook
    is linked, [fdopen] and the opening of the null sink succeed and
    descriptor 0 is open (so that [dup] does not return 0),
    [maybe_duplicate_stderr] followed by [dup_and_close_stderr] returns:
    the descriptor of that file, not of the original standard error, was
    duplicated, so that the sanitizer reports to the file while
    descriptor 2 goes to the null sink. *)
Theorem sanitizer_reports_to_duplicate_file w st path :
  environ st !! "AFL_DRIVER_STDERR_DUPLICATE_FILENAME" = Some path ->
  freopen_ok w path = true ->
  __sanitizer_set_report_fd w = true ->
  fdopen_ok w = true ->
  devnull_ok w = true ->
  fd_lookup (fds st) 0 <> None ->
  let o := (maybe_duplicate_stderr w >> dup_and_close_stderr w) st in
  res o = Ret tt /\
  (exists n, report_fd (final o) = Some n /\
             fd_lookup (fds (final o)) n = Some (AppendFile path)) /\
  fd_lookup (fds (final o)) 2 = Some DevNull.
Proof.
  intros Hs Hre Hsan Hfdopen Hnull Hzero. cbn zeta.
  pose proof (maybe_duplicate_stderr_run w st path Hs) as Hrun. rewrite Hre in Hrun.
  rewrite (bind_Ret _ _ _ tt) by (by rewrite Hrun). rewrite Hrun.
  cbn [events final res].
  set (st1 := set_output_file (Some 2)
                (set_fds (fd_store (fds st) 2 (Some (AppendFile path))) st)).
  destruct (dup_and_close_stderr_discards w st1 2 (AppendFile path))
    as (Hres & Hrep & Hdup & Hnul); try done.
  - unfold st1. cbn [fds set_fds set_output_file]. change 2 with (Z.of_nat 2).
    by rewrite fd_lookup_nat, fd_store_same.
  - unfold st1. cbn [fds set_fds set_output_file].
    change 0 with (Z.of_nat 0) in *. rewrite fd_lookup_nat in *.
    by rewrite fd_store_other.
  - split; [done |]. split; [| done]. eexists. split; [exact Hrep | exact Hdup].
Qed.

Lemma sanitizer_reports_to_duplicate_file_witness :
  environ (set_output_file (Some 2) (initial_state world_stderr_file))
    !! "AFL_DRIVER_STDERR_DUPLICATE_FILENAME" = Some "err.log" /\
  freopen_ok world_stderr_file "err.log" = true /\
  __sanitizer_set_report_fd world_stderr_file = true /\
  fdopen_ok world_stderr_file = true /\
  devnull_ok world_stderr_file = true /\
  fd_lookup (fds (set_output_file (Some 2) (initial_state world_stderr_file))) 0 <> None /\
  fd_lookup
    (fds (final ((maybe_duplicate_stderr world_stderr_file >>
                  dup_and_close_stderr world_stderr_file)
                   (set_output_file (Some 2) (initial_state world_stderr_file))))) 2
    = Some DevNull.
Proof.
  assert (Hs : environ (set_output_file (Some 2) (initial_state world_stderr_file))
                 !! "AFL_DRIVER_STDERR_DUPLICATE_FILENAME" = Some "err.log")
    by (vm_compute; reflexivity).
  assert (H0 : fd_lookup (fds (set_output_file (Some 2)
                                 (initial_state world_stderr_file))) 0 <> None)
    by (vm_compute; discriminate).
  split; [exact Hs |]. do 4 (split; [reflexivity |]). split; [exact H0 |].
  exact (proj2 (proj2
    (sanitizer_reports_to_duplicate_file world_stderr_file _ "err.log"
       Hs eq_refl eq_refl eq_refl eq_refl H0))).
Defined.

(** ** Executing the files *)

Lemma ExecuteFiles_from_opens w paths : forall i st,
  omap opened_path (events (ExecuteFiles_from w i paths st)) = paths.
Proof.
  induction paths as [|path rest IH]; intros i st; [done |].
  destruct (open_answer w i path) as [a|] eqn:Ho.
  - rewrite (ExecuteFiles_from_open w i path rest a st Ho). cbn zeta. cbn [events].
    destruct (0 <? read_result _ _);
      cbn [app omap list_omap opened_path]; f_equal; apply IH.
  - rewrite (ExecuteFiles_from_closed w i path rest st Ho). cbn zeta.
    cbn [events omap list_omap opened_path]. f_equal. apply IH.
Qed.

Lemma fd_store_cons x (t : list (option sink)) n v :
  fd_store (x :: t) (S n) v = x :: fd_store t n v.
Proof.
  unfold fd_store. cbn [length].
  repeat case_decide; try lia; done.
Qed.

(** A new descriptor is one more descriptor in use. *)
Lemma open_count_alloc t s :
  open_count (fd_store t (lowest_free t) (Some s)) = S (open_count t).
Proof.
  induction t as [|[x|] t IH]; cbn [lowest_free].
  - done.
  - rewrite fd_store_cons. cbn [open_count]. by rewrite IH.
  - unfold fd_store. case_decide as H; [done |]. cbn [length] in H. lia.
Qed.

(** A new descriptor takes the place of none that is in use. *)
Lemma fd_alloc_keeps t s' j s :
  fd_lookup t j = Some s ->
  fd_lookup (fd_store t (lowest_free t) (Some s')) j = Some s.
Proof.
  intros Hj. destruct (fd_lookup_open _ _ _ Hj) as [n ->].
  rewrite fd_lookup_nat in *. rewrite fd_store_other; [done |].
  intros ->. by rewrite lowest_free_is_free in Hj.
Qed.

Lemma fd_alloc_new t s' j s :
  fd_lookup (fd_store t (lowest_free t) (Some s')) j = Some s ->
  fd_lookup t j = Some s \/ s = s'.
Proof.
  intros Hj. destruct (fd_lookup_open _ _ _ Hj) as [n ->].
  rewrite fd_lookup_nat in *.
  destruct (decide (n = lowest_free t)) as [->|Hn].
  - rewrite fd_store_same in Hj. right. congruence.
  - rewrite fd_store_other in Hj by done. by left.
Qed.

(** The descriptors the loop over the files leaves behind: one more in
    use per argument that opened, on that file; those in use before are
    as they were. *)
Lemma ExecuteFiles_from_descriptors w paths : forall i st,
  let t' := fds (final (ExecuteFiles_from w i paths st)) in
  open_count t' = (open_count (fds st) + length (opening w i paths))%nat /\
  (forall j s, fd_lookup (fds st) j = Some s -> fd_lookup t' j = Some s) /\
  (forall j s, fd_lookup t' j = Some s ->
     fd_lookup (fds st) j = Some s \/
     exists path, s = ReadOnlyFile path /\ In path (opening w i paths)).
Proof.
  induction paths as [|path rest IH]; intros i st; cbn zeta.
  { cbn. split; [lia |]. split; [done |]. intros j s H. by left. }
  cbn [opening].
  destruct (open_answer w i path) as [a|] eqn:Ho.
  - rewrite (ExecuteFiles_from_open w i path rest a st Ho). cbn zeta. cbn [final].
    match goal with |- context [ExecuteFiles_from w (S i) rest ?s] =>
      destruct (IH (S i) s) as (Hcount & Hkeep & Hnew) end.
    cbn [fds set_fds] in Hcount, Hkeep, Hnew.
    split; [| split].
    + rewrite Hcount, open_count_alloc. cbn [length]. lia.
    + intros j s Hj. apply Hkeep. by apply fd_alloc_keeps.
    + intros j s Hj. destruct (Hnew j s Hj) as [Hold|(p & -> & Hp)].
      * destruct (fd_alloc_new _ _ _ _ Hold) as [H| ->]; [by left |].
        right. exists path. split; [done | by left].
      * right. exists p. split; [done | by right].
  - rewrite (ExecuteFiles_from_closed w i path rest st Ho). cbn zeta. cbn [final].
    apply IH.
Qed.

(** X8. [ExecuteFilesOnyByOne] calls [open] once on every argument after
    the program name, in the order of the arguments, whatever happened
    with the earlier ones, and returns 0.  It never closes what it
    opened: at the return one more descriptor is in use per argument that
    opened, every new one refers to such a file, the descriptors in use
    before are as they were, and nothing else of the driver's state has
    changed. *)
Theorem batch_opens_every_argument_in_order w argv st :
  let o := ExecuteFilesOnyByOne w argv st in
  omap opened_path (events o) = drop 1 argv /\
  res o = Ret 0 /\
  final o = set_fds (fds (final o)) st /\
  open_count (fds (final o)) =
    (open_count (fds st) + length (opening w 1 (drop 1 argv)))%nat /\
  (forall j s, fd_lookup (fds st) j = Some s ->
               fd_lookup (fds (final o)) j = Some s) /\
  (forall j s, fd_lookup (fds (final o)) j = Some s ->
     fd_lookup (fds st) j = Some s \/
     exists path, s = ReadOnlyFile path /\ In path (opening w 1 (drop 1 argv))).
Proof.
  cbn zeta. rewrite ExecuteFilesOnyByOne_run. cbn zeta. cbn [events final res].
  split; [apply ExecuteFiles_from_opens |]. split; [done |].
  split; [apply ExecuteFiles_from_run |].
  apply ExecuteFiles_from_descriptors.
Qed.

Lemma batch_opens_every_argument_in_order_witness :
  opening world_batch 1 ["a.bin"; "b.bin"] = ["a.bin"] /\
  open_count (fds (initial_state world_batch)) = 3%nat /\
  open_count (fds (final (ExecuteFilesOnyByOne world_batch ["prog"; "a.bin"; "b.bin"]
                            (initial_state world_batch)))) = 4%nat /\
  fd_lookup (fds (final (ExecuteFilesOnyByOne world_batch ["prog"; "a.bin"; "b.bin"]
                           (initial_state world_batch)))) 3
    = Some (ReadOnlyFile "a.bin").
Proof.
  split; [reflexivity |]. split; [reflexivity |]. split; [| reflexivity].
  exact (proj1 (proj2 (proj2 (proj2
    (batch_opens_every_argument_in_order world_batch ["prog"; "a.bin"; "b.bin"]
       (initial_state world_batch)))))).
Defined.

Lemma batch_invocations_without_buffer w paths : forall i,
  malloc_ok w = false -> batch_invocations w i paths = [].
Proof.
  induction paths as [|path rest IH]; intros i Hm; [done |].
  cbn [batch_invocations]. rewrite IH by done. unfold file_yield. rewrite Hm.
  by destruct (open_answer w i path).
Qed.

(** X9. When [malloc] fails the buffer is null and no [read] delivers
    anything: [ExecuteFilesOnyByOne] still opens the files and returns
    0, but it never calls the target. *)
Theorem batch_without_buffer_calls_no_target w argv st :
  malloc_ok w = false ->
  List.filter is_target (events (ExecuteFilesOnyByOne w argv st)) = [] /\
  res (ExecuteFilesOnyByOne w argv st) = Ret 0.
Proof.
  intros Hm. rewrite ExecuteFilesOnyByOne_run. cbn [events res]. split; [| done].
  destruct (ExecuteFiles_from_run w (drop 1 argv) 1 st) as (_ & _ & ->).
  by apply batch_invocations_without_buffer.
Qed.

Lemma batch_without_buffer_calls_no_target_witness :
  malloc_ok world_no_buffer = false /\
  List.filter is_target
    (events (ExecuteFilesOnyByOne world_no_buffer ["prog"; "a.bin"; "b.bin"]
               (initial_state world_no_buffer))) = [] /\
  open_answer world_no_buffer 1 "a.bin" = Some (ReadData [x48; x49]).
Proof.
  split; [reflexivity |]. split; [| reflexivity].
  exact (proj1
    (batch_without_buffer_calls_no_target world_no_buffer
       ["prog"; "a.bin"; "b.bin"] (initial_state world_no_buffer) eq_refl)).
Defined.

(** ** The size of the inputs *)

Lemma read_payload_within a count :
  0 < read_result a count ->
  payload_within count (ETestOneInput (read_bytes a count)) = true.
Proof.
  destruct a as [|bytes]; cbn [read_result read_bytes payload_within]; [lia |].
  intros H. apply andb_true_iff. split; [by apply Z.ltb_lt |].
  apply Z.leb_le. rewrite length_take in *. lia.
Qed.

Lemma ExecuteFiles_from_payloads w paths : forall i,
  emits (payload_within (MAX_FILE w)) (ExecuteFiles_from w i paths).
Proof.
  induction paths as [|path rest IH]; intros i st; [done |].
  destruct (open_answer w i path) as [a|] eqn:Ho.
  - rewrite (ExecuteFiles_from_open w i path rest a st Ho). cbn zeta. cbn [events].
    destruct (0 <? read_result _ _) eqn:Hr; cbn [app forallb].
    + apply Z.ltb_lt in Hr. rewrite read_payload_within by done.
      cbn [payload_within andb]. apply IH.
    + cbn [payload_within andb]. apply IH.
  - rewrite (ExecuteFiles_from_closed w i path rest st Ho). cbn zeta.
    cbn [events forallb payload_within andb]. apply IH.
Qed.

Lemma persistent_loop_payloads w N fuel : forall k,
  emits (payload_within 1024000) (persistent_loop w N k fuel).
Proof.
  induction fuel as [|fuel IH]; intros k; cbn [persistent_loop].
  - apply emits_out_of_fuel.
  - unfold __afl_persistent_loop, LLVMFuzzerTestOneInput. cbn zeta.
    rewrite take_read_bytes.
    apply emits_bind; [footprint |]. intros [|]; [| apply emits_ret].
    destruct (0 <? read_result _ _) eqn:Hr; unfold when.
    + apply Z.ltb_lt in Hr.
      repeat (apply emits_bind; [| intros ?]);
        try (apply emits_emit; first [reflexivity | by apply read_payload_within]).
      apply IH.
    + footprint. apply IH.
Qed.

Lemma emits_weaken {A} (P Q : event -> bool) (m : M A) :
  (forall e, P e = true -> Q e = true) -> emits P m -> emits Q m.
Proof. intros HPQ Hm st. by apply (forallb_weaken P). Qed.

Lemma payload_within_mono b b' e :
  b <= b' -> payload_within b e = true -> payload_within b' e = true.
Proof.
  intros Hb. destruct e; try done. cbn [payload_within].
  intros [H1 H2]%andb_true_iff. apply Z.leb_le in H2.
  rewrite H1. apply Z.leb_le. lia.
Qed.

Lemma main_run_payloads w fuel argv :
  emits (payload_within (Z.max (MAX_FILE w) 1024000)) (main_run w fuel argv).
Proof.
  assert (Hloop : forall N,
            emits (payload_within (Z.max (MAX_FILE w) 1024000))
              (persistent_loop w N 0 fuel)).
  { intros N. apply (emits_weaken (payload_within 1024000));
      [intros e; apply payload_within_mono; lia | apply persistent_loop_payloads]. }
  assert (Hwarm : emits (payload_within (Z.max (MAX_FILE w) 1024000))
                    (LLVMFuzzerTestOneInput dummy_input 1)).
  { apply emits_emit. change (take (Z.to_nat 1) dummy_input) with [x23].
    cbn [payload_within length]. apply andb_true_iff.
    split; [done | apply Z.leb_le; lia]. }
  assert (Hpers : forall N,
            emits (payload_within (Z.max (MAX_FILE w) 1024000))
              (main_persistent w fuel argv N)).
  { intros N. unfold main_persistent, assert, getenv, munmap, __afl_manual_init,
      fprintf, printf.
    repeat first [apply Hwarm | apply Hloop | footprint_step]. }
  unfold main_run, main_batch, ExecuteFilesOnyByOne, munmap, __afl_manual_init, printf.
  repeat first [apply Hpers | footprint_step].
  apply (emits_weaken (payload_within (MAX_FILE w)));
    [intros e; apply payload_within_mono; lia | apply ExecuteFiles_from_payloads].
Qed.

(** X10. The target is never called on an empty buffer, and never on
    more bytes than the buffer it is read into holds: every payload has
    at least one byte, at most [MAX_FILE] bytes when it comes from a file
    and at most 1024000 bytes when it comes from descriptor 0; this holds
    for every target call of every run of the process. *)
Theorem target_payloads_fit_their_buffers w :
  (forall argv st,
     forallb (payload_within (MAX_FILE w))
       (events (ExecuteFilesOnyByOne w argv st)) = true) /\
  (forall N k fuel st,
     forallb (payload_within 1024000) (events (persistent_loop w N k fuel st)) = true) /\
  (forall fuel,
     forallb (payload_within (Z.max (MAX_FILE w) 1024000))
       (events (process w fuel)) = true).
Proof.
  split; [| split].
  - intros argv st. rewrite ExecuteFilesOnyByOne_run. cbn [events].
    apply ExecuteFiles_from_payloads.
  - intros N k fuel st. apply persistent_loop_payloads.
  - intros fuel. rewrite process_startup.
    apply emits_bind.
    + apply (emits_weaken startup_event); [by intros [] | apply startup_footprint].
    + intros argv. apply main_run_payloads.
Qed.

(** ** Counting the calls of the loop *)

Lemma count_app P l1 l2 : count P (l1 ++ l2) = (count P l1 + count P l2)%nat.
Proof. unfold count. by rewrite List.filter_app, length_app. Qed.

Lemma count_none (P Q : event -> bool) l :
  (forall e, Q e = true -> P e = false) -> forallb Q l = true -> count P l = 0%nat.
Proof.
  intros HQP. induction l as [|e l IH]; [done |]. cbn [forallb].
  intros [He Hl]%andb_true_iff. unfold count in *. cbn [List.filter].
  rewrite (HQP e He). by apply IH.
Qed.

Lemma iteration_counts w N k :
  count is_consult (iteration_events w N k) = 1%nat /\
  count is_read_stdin (iteration_events w N k) = 1%nat /\
  (count is_target (iteration_events w N k) <= 1)%nat.
Proof.
  unfold iteration_events. cbn zeta.
  destruct (0 <? read_result (stdin_answer w k) 1024000); cbn; lia.
Qed.

Lemma iterations_counts w N l :
  count is_consult (concat (map (iteration_events w N) l)) = length l /\
  count is_read_stdin (concat (map (iteration_events w N) l)) = length l /\
  (count is_target (concat (map (iteration_events w N) l)) <= length l)%nat.
Proof.
  induction l as [|k l (IH1 & IH2 & IH3)]; [done |].
  cbn [map concat length]. rewrite !count_app.
  destruct (iteration_counts w N k) as (H1 & H2 & H3). lia.
Qed.

(** X11. In the persistent loop the target is called at most once per
    read of descriptor 0, descriptor 0 is read at most once per
    consultation of the loop primitive, and the primitive is consulted
    once per turn of the loop: the driver adds no call of its own. *)
Theorem loop_calls_are_nested w N fuel : forall k st,
  (count is_target (events (persistent_loop w N k fuel st))
     <= count is_read_stdin (events (persistent_loop w N k fuel st)))%nat /\
  (count is_read_stdin (events (persistent_loop w N k fuel st))
     <= count is_consult (events (persistent_loop w N k fuel st)))%nat /\
  (count is_consult (events (persistent_loop w N k fuel st)) <= fuel)%nat.
Proof.
  induction fuel as [|fuel IH]; intros k st; [cbn; lia |].
  destruct (persistent_loop_answer w N k) eqn:Hk.
  - rewrite persistent_loop_continue by done. cbn zeta. cbn [events].
    rewrite !count_app.
    destruct (iteration_counts w N k) as (H1 & H2 & H3).
    destruct (IH (S k) st) as (I1 & I2 & I3).
    assert (Hr : read_result (stdin_answer w k) 1024000 <= 0 \/
                 0 < read_result (stdin_answer w k) 1024000) by lia.
    lia.
  - rewrite persistent_loop_leave by done. cbn. lia.
Qed.

Lemma counting_loop w N fuel st :
  (forall k, persistent_loop_answer w N k = (Z.of_nat k <? N)) ->
  0 <= N ->
  (Z.to_nat N < fuel)%nat ->
  persistent_loop w N 0 fuel st =
    Outcome (concat (map (iteration_events w N) (seq 0 (Z.to_nat N)))
             ++ [EPersistentLoop N false]) st (Ret tt).
Proof.
  intros Hcount HN Hfuel. apply persistent_loop_stops; [| | done].
  - intros j Hj. rewrite Hcount. apply Z.ltb_lt. lia.
  - rewrite Hcount. apply Z.ltb_ge. lia.
Qed.

(** X12. When the loop primitive is a plain counter that answers true to
    its first [N] calls, a persistent run with budget [N] and enough fuel
    returns 0 after consulting the primitive [N + 1] times, and calls the
    target at most [N + 1] times in all: the warm-up call and at most one
    call per turn of the loop. *)
Theorem counting_primitive_bounds_the_run w fuel argv N deprecated :
  res (startup w (initial_state w)) = Ret argv ->
  main_mode argv = PersistentLoop N deprecated ->
  0 < N ->
  (forall k, persistent_loop_answer w N k = (Z.of_nat k <? N)) ->
  (Z.to_nat N < fuel)%nat ->
  res (process w fuel) = Ret 0 /\
  count is_consult (events (process w fuel)) = S (Z.to_nat N) /\
  (count is_target (events (process w fuel)) <= S (Z.to_nat N))%nat.
Proof.
  intros Hs Hm HN Hcount Hfuel.
  rewrite (process_persistent w fuel argv N deprecated Hs Hm). cbn zeta.
  cbn [events res].
  pose proof (startup_footprint w (initial_state w)) as Hstart.
  assert (Hc0 : count is_consult (events (startup w (initial_state w))) = 0%nat)
    by (apply (count_none _ startup_event); [by intros [] | done]).
  assert (Ht0 : count is_target (events (startup w (initial_state w))) = 0%nat)
    by (apply (count_none _ startup_event); [by intros [] | done]).
  destruct (iterations_counts w N (seq 0 (Z.to_nat N))) as (I1 & _ & I3).
  rewrite length_seq in I1, I3.
  destruct (environ (final (startup w (initial_state w)))
              !! "AFL_DISABLE_LLVM_INSTRUMENTATION") as [v|] eqn:He.
  - rewrite (main_persistent_detached w fuel argv N _ v HN He). cbn zeta.
    rewrite counting_loop by (done || lia). cbn [events res closing_result closing_events].
    split; [done |]. rewrite !count_app, Hc0, Ht0, I1.
    destruct deprecated; cbn; lia.
  - rewrite (main_persistent_attached w fuel argv N _ HN He). cbn zeta.
    rewrite counting_loop by (done || lia). cbn [events res closing_result closing_events].
    split; [done |]. rewrite !count_app, Hc0, Ht0, I1.
    destruct deprecated; cbn; lia.
Qed.

Lemma counting_primitive_bounds_the_run_witness :
  res (startup world_budget_3 (initial_state world_budget_3)) = Ret ["prog"; "-3"] /\
  main_mode ["prog"; "-3"] = PersistentLoop 3 false /\
  0 < 3 /\
  (forall k, persistent_loop_answer world_budget_3 3 k = (Z.of_nat k <? 3)) /\
  (Z.to_nat 3 < 10)%nat /\
  res (process world_budget_3 10) = Ret 0 /\
  count is_consult (events (process world_budget_3 10)) = 4%nat /\
  (count is_target (events (process world_budget_3 10)) <= 4)%nat.
Proof.
  assert (Hs : res (startup world_budget_3 (initial_state world_budget_3))
               = Ret ["prog"; "-3"]) by (vm_compute; reflexivity).
  assert (Hm : main_mode ["prog"; "-3"] = PersistentLoop 3 false)
    by (vm_compute; reflexivity).
  assert (HN : 0 < 3) by lia.
  assert (Hc : forall k, persistent_loop_answer world_budget_3 3 k = (Z.of_nat k <? 3))
    by (intros k; reflexivity).
  assert (Hf : (Z.to_nat 3 < 10)%nat) by (vm_compute; lia).
  split; [exact Hs |]. split; [exact Hm |]. split; [exact HN |].
  split; [exact Hc |]. split; [exact Hf |].
  exact (counting_primitive_bounds_the_run world_budget_3 10 _ 3 false Hs Hm HN Hc Hf).
Defined.

(** ** The budget handed to the runtime *)

Lemma to_int_range z : INT_MIN <= to_int z <= INT_MAX.
Proof.
  unfold to_int, INT_MIN, INT_MAX.
  pose proof (Z.mod_pos_bound (z + 2147483648) 4294967296). lia.
Qed.

Lemma main_mode_budget_max argv N deprecated :
  main_mode argv = PersistentLoop N deprecated -> N <= INT_MAX.
Proof.
  unfold main_mode.
  repeat match goal with |- context [if ?c then _ else _] => destruct c end;
    intros [= <- _]; try apply to_int_range; done.
Qed.

Lemma persistent_loop_budget w N fuel : forall k,
  0 < N -> N <= INT_MAX ->
  emits budget_in_range (persistent_loop w N k fuel).
Proof.
  induction fuel as [|fuel IH]; intros k Hpos Hmax; cbn [persistent_loop].
  - apply emits_out_of_fuel.
  - unfold __afl_persistent_loop, LLVMFuzzerTestOneInput. cbn zeta.
    apply emits_bind.
    + apply emits_bind; [| intros ?; apply emits_ret].
      apply emits_emit. cbn [budget_in_range].
      apply andb_true_iff. split; [by apply Z.ltb_lt | by apply Z.leb_le].
    + intros [|]; [| apply emits_ret]. footprint. by apply IH.
Qed.

Lemma main_persistent_budget w fuel argv N :
  N <= INT_MAX -> emits budget_in_range (main_persistent w fuel argv N).
Proof.
  intros Hmax. destruct (Z.le_gt_cases N 0) as [Hneg|Hpos].
  - intros st. by rewrite main_persistent_rejects.
  - unfold main_persistent, assert, getenv, munmap, __afl_manual_init, fprintf,
      printf, LLVMFuzzerTestOneInput.
    repeat first [apply persistent_loop_budget; lia | footprint_step].
Qed.

(** X13. Whenever the driver consults [__afl_persistent_loop(N)], in any
    run, [N] is positive and not above [INT_MAX], so that the conversion
    of the [int] to the [unsigned int] parameter keeps its value. *)
Theorem loop_budget_is_a_positive_int w fuel :
  forallb budget_in_range (events (process w fuel)) = true.
Proof.
  rewrite process_startup. apply emits_bind.
  - apply (emits_weaken startup_event); [by intros [] | apply startup_footprint].
  - intros argv st. rewrite main_run_mode.
    destruct (main_mode argv) as [N deprecated|] eqn:Hm.
    + apply emits_bind; [unfold printf; footprint |].
      intros _. apply main_persistent_budget. by apply (main_mode_budget_max argv N deprecated).
    + rewrite main_batch_run. cbn [events app forallb budget_in_range andb].
      apply (forallb_weaken batch_event);
        [by intros [] | apply ExecuteFiles_from_footprint].
Qed.

(** ** No change of mode *)

Lemma main_persistent_no_file_call w fuel argv N :
  emits no_file_call (main_persistent w fuel argv N).
Proof.
  unfold main_persistent, assert, getenv, munmap, __afl_manual_init, fprintf,
    printf, LLVMFuzzerTestOneInput.
  repeat first
    [ apply (emits_weaken loop_event);
        [by intros [] | apply persistent_loop_footprint]
    | footprint_step ].
Qed.

(** X14. A run never mixes the two modes: either it makes no [open] and
    no [read] on a file given as argument, or it never consults the loop
    primitive and never reads descriptor 0. *)
Theorem run_stays_in_one_mode w fuel :
  forallb no_file_call (events (process w fuel)) = true \/
  forallb no_loop_call (events (process w fuel)) = true.
Proof.
  pose proof (startup_footprint w (initial_state w)) as Hstart.
  destruct (res (startup w (initial_state w))) as [argv| |] eqn:Hs.
  - destruct (main_mode argv) as [N deprecated|] eqn:Hm.
    + left. rewrite (process_persistent w fuel argv N deprecated Hs Hm). cbn zeta.
      cbn [events]. split_forallb.
      * apply (forallb_weaken startup_event); [by intros [] | done].
      * by destruct deprecated.
      * apply main_persistent_no_file_call.
    + right. rewrite (process_batch w fuel argv Hs Hm). cbn [events].
      split_forallb.
      * apply (forallb_weaken startup_event); [by intros [] | done].
      * done.
      * apply (forallb_weaken batch_event);
          [by intros [] | apply ExecuteFiles_from_footprint].
  - left. destruct (process_stops w fuel) as [-> _]; [by rewrite Hs |].
    apply (forallb_weaken startup_event); [by intros [] | done].
  - left. destruct (process_stops w fuel) as [-> _]; [by rewrite Hs |].
    apply (forallb_weaken startup_event); [by intros [] | done].
Qed.

(** ** The environment *)

Lemma main_run_environ w fuel argv name v :
  preserves (fun st => environ st !! name = v) (main_run w fuel argv).
Proof.
  assert (Hloop : forall N,
            preserves (fun st => environ st !! name = v) (persistent_loop w N 0 fuel))
    by (intros N st H; by rewrite persistent_loop_final).
  assert (Hfiles : preserves (fun st => environ st !! name = v)
                     (ExecuteFiles_from w 1 (drop 1 argv))).
  { intros st H.
    destruct (ExecuteFiles_from_globals w (drop 1 argv) 1 st) as (_ & _ & He & _).
    by rewrite He. }
  unfold main_run, main_batch, main_persistent, ExecuteFilesOnyByOne, assert, getenv,
    munmap, __afl_manual_init, fprintf, printf, LLVMFuzzerTestOneInput.
  repeat first [apply Hloop | apply Hfiles | preserves_step]; done.
Qed.

(** X15. The driver changes one environment variable only: whatever the
    run, every variable other than [__AFL_DEFER_FORKSRV] has at the end
    the value, or the absence, it had when the process started. *)
Theorem environment_is_kept_but_for_defer_variable w fuel name :
  name <> "__AFL_DEFER_FORKSRV" ->
  environ (final (process w fuel)) !! name = initial_environ w !! name.
Proof.
  intros Hne. rewrite process_startup.
  apply (preserves_bind (fun st => environ st !! name = initial_environ w !! name)).
  - by apply startup_environ.
  - intros argv. apply main_run_environ.
  - done.
Qed.

Lemma environment_is_kept_but_for_defer_variable_witness :
  "AFL_DISABLE_LLVM_INSTRUMENTATION" <> "__AFL_DEFER_FORKSRV" /\
  environ (final (process world_uninstrumented 5)) !! "AFL_DISABLE_LLVM_INSTRUMENTATION"
    = Some "1".
Proof.
  assert (Hne : "AFL_DISABLE_LLVM_INSTRUMENTATION" <> "__AFL_DEFER_FORKSRV")
    by discriminate.
  split; [exact Hne |].
  rewrite (environment_is_kept_but_for_defer_variable world_uninstrumented 5 _ Hne).
  vm_compute. reflexivity.
Defined.

(** ** The initializer of the target *)

Lemma redirection_before_initialize w :
  emits before_initialize (maybe_duplicate_stderr w >> maybe_close_fd_mask w).
Proof.
  unfold maybe_duplicate_stderr, maybe_close_fd_mask, close_stdout,
    dup_and_close_stderr, discard_output, getenv, freopen_stderr, fopen_devnull,
    dup, dup2, fclose, close_fd, fd_alloc, fdopen, fprintf.
  footprint.
Qed.

Lemma constructors_before_initialize w : emits before_initialize (constructors w).
Proof.
  unfold constructors, __decide_deferred_forkserver, __afl_protect, getenv,
    unsetenv, setenv, mmap, perror.
  footprint.
Qed.

Lemma main_init_initializes w st initialize argv :
  LLVMFuzzerInitialize w = Some initialize ->
  res (main_init w st) = Ret argv ->
  exists pre,
    events (main_init w st) =
      pre ++ [EPrint Stderr MsgRunningInitialize; EInitialize (process_argv w);
              EPrint Stderr MsgContinue] /\
    forallb before_initialize pre = true.
Proof.
  intros Hinit. unfold main_init, fprintf, printf. rewrite Hinit. run.
  set (st1 := set_output_file (Some STDERR_FILENO) st).
  set (T := emit (EPrint Stderr MsgRunningInitialize) >>
            emit (EInitialize (process_argv w)) >>
            emit (EPrint Stderr MsgContinue) >> ret (initialize (process_argv w))).
  rewrite <- (bind_assoc (maybe_duplicate_stderr w)
                (fun _ => maybe_close_fd_mask w) (fun _ => T) st1).
  pose proof (redirection_before_initialize w st1) as Hred.
  destruct (res ((maybe_duplicate_stderr w >> maybe_close_fd_mask w) st1))
    as [[]| |] eqn:Hr.
  - rewrite (bind_Ret _ _ _ tt Hr). cbn [events res]. intros _.
    eexists (_ :: _ :: _). split.
    + unfold T. run. cbn [app]. reflexivity.
    + cbn [forallb]. by rewrite Hred.
  - unfold bind at 1. by rewrite Hr.
  - unfold bind at 1. by rewrite Hr.
Qed.

Lemma bind_Ret_inv {A B} (m : M A) (f : A -> M B) st b :
  res (bind m f st) = Ret b ->
  exists a, res (m st) = Ret a /\ res (f a (final (m st))) = Ret b.
Proof.
  unfold bind. destruct (res (m st)) as [a| |]; [| done | done].
  cbn [res]. intros H. by exists a.
Qed.

Lemma main_run_after_initialize w fuel argv :
  emits after_initialize (main_run w fuel argv).
Proof.
  unfold main_run, main_batch, main_persistent, ExecuteFilesOnyByOne, assert, getenv,
    munmap, __afl_manual_init, fprintf, printf, LLVMFuzzerTestOneInput.
  repeat first
    [ apply (emits_weaken loop_event);
        [by intros [] | apply persistent_loop_footprint]
    | apply (emits_weaken batch_event);
        [by intros [] | apply ExecuteFiles_from_footprint]
    | footprint_step ].
Qed.

Lemma startup_returned w st argv :
  res (startup w st) = Ret argv ->
  res (main_init w (final (constructors w st))) = Ret argv /\
  events (startup w st) =
    events (constructors w st) ++ events (main_init w (final (constructors w st))).
Proof.
  intros H. unfold startup in *.
  destruct (bind_Ret_inv _ _ _ _ H) as ([] & Hc & Hm).
  split; [exact Hm |]. by rewrite (bind_Ret _ _ _ tt Hc).
Qed.

(** X17. When an initializer is linked and the start-up returns,
    [LLVMFuzzerInitialize] is called exactly once, on the arguments of
    the process: every call before it is a constructor or redirection
    call (so it runs after the redirection of the streams and before the
    map is released, the deferred-initialization signal sent or the
    target called), and no redirection follows it. *)
Theorem initializer_runs_once_after_redirection w fuel initialize argv :
  LLVMFuzzerInitialize w = Some initialize ->
  res (startup w (initial_state w)) = Ret argv ->
  exists pre post,
    events (process w fuel) = pre ++ EInitialize (process_argv w) :: post /\
    forallb before_initialize pre = true /\
    forallb after_initialize post = true.
Proof.
  intros Hinit Hs.
  destruct (startup_returned w _ argv Hs) as (Hm & Hev).
  destruct (main_init_initializes w _ initialize argv Hinit Hm) as (pre & Hpre & Hbefore).
  pose proof (process_continues w fuel argv Hs) as Hp. cbn zeta in Hp.
  pose proof (main_run_after_initialize w fuel argv
                (final (startup w (initial_state w)))) as Hafter.
  pose proof (constructors_before_initialize w (initial_state w)) as Hcons.
  revert Hp Hafter.
  generalize (main_run w fuel argv (final (startup w (initial_state w)))).
  revert Hev Hpre. generalize (events (startup w (initial_state w))).
  generalize (events (main_init w (final (constructors w (initial_state w))))).
  revert Hcons. generalize (events (constructors w (initial_state w))).
  intros ec Hcons em es -> -> r -> Hafter. cbn [events].
  exists (ec ++ pre ++ [EPrint Stderr MsgRunningInitialize]),
    (EPrint Stderr MsgContinue :: events r).
  split; [| split].
  - rewrite <- !app_assoc. reflexivity.
  - split_forallb; done.
  - cbn [forallb]. by rewrite Hafter.
Qed.

Lemma initializer_runs_once_after_redirection_witness :
  LLVMFuzzerInitialize world_initializer = Some (take 1) /\
  res (startup world_initializer (initial_state world_initializer)) = Ret ["prog"] /\
  exists pre post,
    events (process world_initializer 1) =
      pre ++ EInitialize ["prog"; "a.bin"] :: post /\
    forallb before_initialize pre = true /\
    forallb after_initialize post = true.
Proof.
  assert (Hs : res (startup world_initializer (initial_state world_initializer))
               = Ret ["prog"]) by (vm_compute; reflexivity).
  split; [reflexivity |]. split; [exact Hs |].
  exact (initializer_runs_once_after_redirection world_initializer 1 _ _ eq_refl Hs).
Defined.

(** ** The descriptors the driver leaves alone *)

Lemma fd_store_keeps_used t n v j s :
  fd_lookup t j = Some s -> j <> Z.of_nat n ->
  fd_lookup (fd_store t n v) j = Some s.
Proof.
  intros Hj Hn. destruct (fd_lookup_open _ _ _ Hj) as [i ->].
  rewrite fd_lookup_nat in *. rewrite fd_store_other; [done | lia].
Qed.

Lemma discard_output_output_file w st fd :
  output_file (final (discard_output w fd st)) = output_file st.
Proof.
  destruct (devnull_ok w) eqn:Hnull.
  - by rewrite discard_output_run.
  - unfold discard_output, fopen_devnull. rewrite Hnull. by run.
Qed.

Lemma discard_output_keeps w fd j s :
  j <> fd -> preserves (keeps_descriptor j s) (discard_output w fd).
Proof.
  intros Hj st [Hlook Hout]. split.
  - by rewrite (discard_output_frame w st fd j Hj).
  - by rewrite discard_output_output_file.
Qed.

Lemma dup_and_close_stderr_keeps w j s :
  j <> 2 -> preserves (keeps_descriptor j s) (dup_and_close_stderr w).
Proof.
  intros Hj st HJ. pose proof HJ as [Hlook Hout].
  unfold dup_and_close_stderr. run.
  destruct (output_file st) as [fd|] eqn:Hfile; [| exact HJ].
  assert (fd = 2) as -> by (destruct Hout as [|[= ->]]; done).
  destruct (fd_lookup (fds st) 2) as [s2|] eqn:H2.
  - rewrite (dup_run 2 s2) by done. cbn zeta. cbn [final].
    assert (Hst1 : keeps_descriptor j s
              (set_fds (fd_store (fds st) (lowest_free (fds st)) (Some s2)) st)).
    { split; cbn [fds output_file set_fds]; [| by rewrite Hfile; right].
      apply fd_store_keeps_used; [done |]. intros ->.
      by rewrite fd_lookup_nat, lowest_free_is_free in Hlook. }
    destruct (Z.of_nat (lowest_free (fds st)) <=? 0); [exact Hst1 |].
    unfold fdopen. run. destruct (fdopen_ok w); cbn [negb]; [| exact Hst1].
    destruct (__sanitizer_set_report_fd w); cbn [negb]; [| exact Hst1].
    run. by apply discard_output_keeps.
  - unfold dup. run. rewrite H2. run. exact HJ.
Qed.

Lemma maybe_duplicate_stderr_keeps w j s :
  j <> 2 -> preserves (keeps_descriptor j s) (maybe_duplicate_stderr w).
Proof.
  intros Hj st [Hlook Hout].
  destruct (environ st !! "AFL_DRIVER_STDERR_DUPLICATE_FILENAME") as [path|] eqn:Hs.
  - rewrite (maybe_duplicate_stderr_run w st path Hs).
    destruct (fd_lookup_open _ _ _ Hlook) as [i ->]. rewrite fd_lookup_nat in Hlook.
    destruct (freopen_ok w path); cbn [final]; split;
      cbn [fds output_file set_fds set_output_file]; rewrite ?fd_lookup_nat.
    + rewrite fd_store_other; [done | lia].
    + by right.
    + rewrite list_lookup_insert_ne; [done | lia].
    + done.
  - unfold maybe_duplicate_stderr, getenv. run. rewrite Hs. by split.
Qed.

Lemma startup_keeps w j s :
  j <> 1 -> j <> 2 -> preserves (keeps_descriptor j s) (startup w).
Proof.
  intros H1 H2.
  unfold startup, constructors, __decide_deferred_forkserver, __afl_protect,
    main_init, maybe_close_fd_mask, close_stdout, getenv, unsetenv, setenv, mmap,
    fprintf, printf, perror.
  repeat first
    [ preserves_step
    | apply maybe_duplicate_stderr_keeps; assumption
    | apply dup_and_close_stderr_keeps; assumption
    | apply discard_output_keeps; assumption ];
    match goal with H : keeps_descriptor _ _ _ |- _ => destruct H as [Hl Ho] end;
    (split; [exact Hl | first [exact Ho | by right]]).
Qed.

Lemma main_run_keeps w fuel argv j s :
  preserves (keeps_descriptor j s) (main_run w fuel argv).
Proof.
  assert (Hloop : forall N,
            preserves (keeps_descriptor j s) (persistent_loop w N 0 fuel))
    by (intros N st H; by rewrite persistent_loop_final).
  assert (Hfiles : preserves (keeps_descriptor j s)
                     (ExecuteFiles_from w 1 (drop 1 argv))).
  { intros st [Hl Ho].
    destruct (ExecuteFiles_from_globals w (drop 1 argv) 1 st) as (_ & _ & _ & Hout).
    destruct (ExecuteFiles_from_descriptors w (drop 1 argv) 1 st) as (_ & Hkeep & _).
    split; [by apply Hkeep | by rewrite Hout]. }
  unfold main_run, main_batch, main_persistent, ExecuteFilesOnyByOne, assert, getenv,
    munmap, __afl_manual_init, fprintf, printf, LLVMFuzzerTestOneInput.
  repeat first [apply Hloop | apply Hfiles | preserves_step]; done.
Qed.

(** X18. The driver redirects descriptors 1 and 2 only: a descriptor
    other than these that is open when the process starts (descriptor 0,
    from which the persistent loop reads, in particular) refers to the
    same thing at the end of every run, whatever the mask, the duplicate
    file and the failures on the way. *)
Theorem inherited_descriptors_are_kept w fuel j s :
  j <> 1 -> j <> 2 ->
  fd_lookup (initial_fds w) j = Some s ->
  fd_lookup (fds (final (process w fuel))) j = Some s.
Proof.
  intros H1 H2 Hj. rewrite process_startup.
  apply (preserves_bind (keeps_descriptor j s)).
  - by apply startup_keeps.
  - intros argv. apply main_run_keeps.
  - split; [exact Hj | by left].
Qed.

Lemma inherited_descriptors_are_kept_witness :
  0 <> 1 /\ 0 <> 2 /\
  fd_lookup (initial_fds world_stderr_file) 0 = Some (Inherited 0) /\
  fd_lookup (fds (final (process world_stderr_file 5))) 0 = Some (Inherited 0).
Proof.
  assert (H1 : 0 <> 1) by lia. assert (H2 : 0 <> 2) by lia.
  split; [exact H1 |]. split; [exact H2 |]. split; [reflexivity |].
  exact (inherited_descriptors_are_kept world_stderr_file 5 0 (Inherited 0)
           H1 H2 eq_refl).
Defined.

(** ** The release of the placeholder *)

Lemma afl_protect_tracks w st :
  dummy_map st = None -> map_tracked w (final (__afl_protect w st)).
Proof.
  intros Hnone. unfold map_tracked, __afl_protect, strategies, setenv, mmap.
  cbn [first_success].
  change (to_uint64 (-1)) with MAP_FAILED.
  pose proof (to_uint64_idemp (mmap_answer w map_at_0x10000_noreplace)) as E1.
  pose proof (to_uint64_idemp (mmap_answer w map_at_0x10000)) as E2.
  pose proof (to_uint64_idemp (mmap_answer w map_anywhere)) as E3.
  revert E1 E2 E3.
  generalize (to_uint64 (mmap_answer w map_at_0x10000_noreplace)).
  generalize (to_uint64 (mmap_answer w map_at_0x10000)).
  generalize (to_uint64 (mmap_answer w map_anywhere)).
  intros r3 r2 r1 E1 E2 E3. cbn zeta.
  destruct (setenv_fails w);
  destruct (r1 =? MAP_FAILED) eqn:H1;
  destruct (r2 =? MAP_FAILED) eqn:H2;
  destruct (r3 =? MAP_FAILED) eqn:H3;
  repeat first
    [ progress run
    | progress cbn [__afl_area_ptr set_area_ptr set_dummy_map set_environ negb
                      dummy_map events final res]
    | rewrite E1 | rewrite E2 | rewrite E3
    | rewrite H1 | rewrite H2 | rewrite H3
    | progress cbn [when] ];
  try (apply Z.eqb_eq in H3; subst r3);
  (split; [done | first [by right | by left]]).
Qed.

Lemma main_init_tracks w : preserves (map_tracked w) (main_init w).
Proof.
  unfold main_init, maybe_duplicate_stderr, maybe_close_fd_mask, close_stdout,
    dup_and_close_stderr, discard_output, getenv, freopen_stderr, fopen_devnull,
    dup, dup2, fclose, close_fd, fd_alloc, fdopen, fprintf, printf.
  repeat preserves_step; done.
Qed.

Lemma decide_deferred_forkserver_unmapped w :
  preserves (fun st => dummy_map st = None) (__decide_deferred_forkserver w).
Proof.
  unfold __decide_deferred_forkserver, getenv, unsetenv, perror.
  repeat preserves_step; done.
Qed.

Lemma bind_final {A B} (m : M A) (f : A -> M B) st a :
  res (m st) = Ret a -> final (bind m f st) = final (f a (final (m st))).
Proof. intros H. by rewrite (bind_Ret m f st a H). Qed.

Lemma startup_tracks w argv :
  res (startup w (initial_state w)) = Ret argv ->
  map_tracked w (final (startup w (initial_state w))).
Proof.
  intros Hs. unfold startup in *.
  destruct (bind_Ret_inv _ _ _ _ Hs) as ([] & Hc & _).
  rewrite (bind_final _ _ _ tt Hc). apply main_init_tracks.
  unfold constructors in *.
  destruct (bind_Ret_inv _ _ _ _ Hc) as ([] & Hd & _).
  rewrite (bind_final _ _ _ tt Hd). apply afl_protect_tracks.
  by apply decide_deferred_forkserver_unmapped.
Qed.

Lemma released_unmapped w st :
  map_tracked w st ->
  dummy_map (released w st) = None /\
  __afl_area_ptr (released w st) = manual_init_area_ptr w.
Proof.
  intros [_ Hmap]. unfold released. split; [| done].
  cbn [dummy_map set_area_ptr].
  destruct Hmap as [Hnone|Hsome].
  - rewrite bool_decide_eq_false_2 by (rewrite Hnone; discriminate). done.
  - by rewrite bool_decide_eq_true_2.
Qed.

(** X19. In every run that sends the deferred-initialization signal, the
    only [munmap] is on the pointer [__afl_protect] obtained (the address
    of the first mapping that succeeded, or [MAP_FAILED] when none did),
    with the size of the placeholder; when the run ends no placeholder
    mapping is left, and [__afl_area_ptr] is what the runtime installed. *)
Theorem placeholder_is_released_where_it_was_mapped w fuel :
  existsb is_manual_init (events (process w fuel)) = true ->
  forallb (unmaps_only (first_success w strategies)) (events (process w fuel)) = true /\
  dummy_map (final (process w fuel)) = None /\
  __afl_area_ptr (final (process w fuel)) = manual_init_area_ptr w.
Proof.
  intros Hsig.
  pose proof (startup_keeps_map w (initial_state w)) as Hkeep.
  pose proof (startup_footprint w (initial_state w)) as Hstart.
  destruct (res (startup w (initial_state w))) as [argv| |] eqn:Hs.
  2, 3: destruct (process_stops w fuel) as [He _]; [by rewrite Hs |];
        rewrite He, keeps_map_no_signal in Hsig; done.
  destruct (startup_tracks w argv Hs) as [Hptr Hmap].
  assert (Hmunmap : unmaps_only (first_success w strategies)
            (EMunmap (__afl_area_ptr (final (startup w (initial_state w))))
                     MAX_DUMMY_SIZE) = true).
  { cbn [unmaps_only]. by rewrite Hptr, !Z.eqb_refl. }
  assert (Hpre : forallb (unmaps_only (first_success w strategies))
                   (events (startup w (initial_state w))) = true)
    by (apply (forallb_weaken startup_event); [by intros [] | done]).
  destruct (main_mode argv) as [N deprecated|] eqn:Hm.
  - rewrite (process_persistent w fuel argv N deprecated Hs Hm) in *.
    cbn zeta in *. cbn [events final] in *.
    assert (Hdep : forallb keeps_map
              (if deprecated then [EPrint Stdout (MsgDeprecated (argv !! 0%nat) N)]
               else []) = true) by (by destruct deprecated).
    destruct (Z.le_gt_cases N 0) as [HN|HN].
    { rewrite main_persistent_rejects in Hsig by done.
      rewrite keeps_map_no_signal in Hsig; [done |]. split_forallb; done. }
    destruct (environ (final (startup w (initial_state w)))
                !! "AFL_DISABLE_LLVM_INSTRUMENTATION") as [v|] eqn:He.
    { rewrite (main_persistent_detached w fuel argv N _ v) in Hsig by (done || lia).
      rewrite keeps_map_no_signal in Hsig; [done |].
      cbn [events]. split_forallb; try done.
      - apply (forallb_weaken loop_event);
          [by intros [] | apply persistent_loop_footprint].
      - by apply closing_events_quiet. }
    rewrite (main_persistent_attached w fuel argv N) by (done || lia).
    cbn [events final]. split; [| by apply released_unmapped].
    split_forallb; try done.
    + by destruct deprecated.
    + cbn [forallb]. by rewrite Hmunmap.
    + apply (forallb_weaken loop_event);
        [by intros [] | apply persistent_loop_footprint].
    + by apply closing_events_quiet.
  - rewrite (process_batch w fuel argv Hs Hm). cbn [events final].
    split.
    2: { match goal with |- context [ExecuteFiles_from w 1 ?l ?s] =>
           destruct (ExecuteFiles_from_globals w l 1 s) as (Hd & Hp & _) end.
         rewrite Hd, Hp. by apply released_unmapped. }
    split_forallb; try done.
    + cbn [forallb]. by rewrite Hmunmap.
    + apply (forallb_weaken batch_event);
        [by intros [] | apply ExecuteFiles_from_footprint].
Qed.

Lemma placeholder_is_released_where_it_was_mapped_witness :
  existsb is_manual_init (events (process world_batch 0)) = true /\
  first_success world_batch strategies = 65536 /\
  dummy_map (final (process world_batch 0)) = None.
Proof.
  assert (H : existsb is_manual_init (events (process world_batch 0)) = true)
    by (vm_compute; reflexivity).
  split; [exact H |]. split; [reflexivity |].
  exact (proj1 (proj2 (placeholder_is_released_where_it_was_mapped world_batch 0 H))).
Defined.

(** ** The constructors *)

(** X20. Whatever the environment of the process, when the constructors
    return and [setenv] succeeded, [__AFL_DEFER_FORKSRV] is set to ["1"]:
    the driver always asks the runtime for deferred mode. *)
Theorem constructors_request_deferred_mode w :
  setenv_fails w = false ->
  res (constructors w (initial_state w)) = Ret tt ->
  environ (final (constructors w (initial_state w))) !! "__AFL_DEFER_FORKSRV"
    = Some "1".
Proof.
  intros Hset Hc. unfold constructors in *.
  destruct (bind_Ret_inv _ _ _ _ Hc) as ([] & Hd & _).
  rewrite (bind_final _ _ _ tt Hd), afl_protect_environ, Hset.
  apply lookup_insert_eq.
Qed.

Lemma constructors_request_deferred_mode_witness :
  setenv_fails world_budget_3 = false /\
  res (constructors world_budget_3 (initial_state world_budget_3)) = Ret tt /\
  environ (final (constructors world_budget_3 (initial_state world_budget_3)))
    !! "__AFL_DEFER_FORKSRV" = Some "1".
Proof.
  assert (Hc : res (constructors world_budget_3 (initial_state world_budget_3)) = Ret tt)
    by (vm_compute; reflexivity).
  split; [reflexivity |]. split; [exact Hc |].
  exact (constructors_request_deferred_mode world_budget_3 eq_refl Hc).
Defined.

(** X21. When [AFL_DRIVER_DONT_DEFER] is set and [unsetenv] fails, the
    process reports the failure and aborts at once: it makes no other
    call (no [setenv], no [mmap], nothing of [main]) and changes
    nothing. *)
Theorem failed_unsetenv_aborts_before_anything_else w fuel v :
  initial_environ w !! "AFL_DRIVER_DONT_DEFER" = Some v ->
  unsetenv_fails w = true ->
  process w fuel =
    Outcome [EUnsetenv "__AFL_DEFER_FORKSRV" (-1); EPrint Stderr MsgPerrorUnset; EAbort]
            (initial_state w) Aborted.
Proof.
  intros He Hu.
  unfold process, constructors, __decide_deferred_forkserver, getenv, unsetenv, perror.
  run. cbn [environ initial_state] in *. rewrite He, Hu.
  rewrite bool_decide_eq_true_2 by done. cbn [when]. run.
  cbn [when negb Z.eqb]. by run.
Qed.

Lemma failed_unsetenv_aborts_before_anything_else_witness :
  initial_environ world_unsetenv_fails !! "AFL_DRIVER_DONT_DEFER" = Some "1" /\
  unsetenv_fails world_unsetenv_fails = true /\
  res (process world_unsetenv_fails 3) = Aborted.
Proof.
  assert (He : initial_environ world_unsetenv_fails !! "AFL_DRIVER_DONT_DEFER"
               = Some "1") by (vm_compute; reflexivity).
  split; [exact He |]. split; [reflexivity |].
  by rewrite (failed_unsetenv_aborts_before_anything_else
                world_unsetenv_fails 3 "1" He eq_refl).
Defined.

(** ** Both bits of the mask *)

(** X22. With both low bits of the mask set, the sanitizer hook linked,
    descriptors 0, 1 and 2 open and no call failing,
    [maybe_close_fd_mask] handles standard error first and standard
    output second, and returns with descriptors 1 and 2 on the null sink
    while the descriptor given to the sanitizer still refers to what
    standard error referred to. *)
Theorem close_fd_mask_both_bits w st s s1 s2 :
  environ st !! "AFL_DRIVER_CLOSE_FD_MASK" = Some s ->
  Z.land (atoi s) 2 <> 0 ->
  Z.land (atoi s) 1 <> 0 ->
  __sanitizer_set_report_fd w = true ->
  fdopen_ok w = true ->
  devnull_ok w = true ->
  output_file st = Some 2 ->
  fd_lookup (fds st) 0 <> None ->
  fd_lookup (fds st) 1 = Some s1 ->
  fd_lookup (fds st) 2 = Some s2 ->
  res (maybe_close_fd_mask w st) = Ret tt /\
  fd_lookup (fds (final (maybe_close_fd_mask w st))) 1 = Some DevNull /\
  fd_lookup (fds (final (maybe_close_fd_mask w st))) 2 = Some DevNull /\
  report_fd (final (maybe_close_fd_mask w st))
    = Some (Z.of_nat (lowest_free (fds st))) /\
  fd_lookup (fds (final (maybe_close_fd_mask w st))) (Z.of_nat (lowest_free (fds st)))
    = Some s2.
Proof.
  intros Hs Hb1 Hb0 Hsan Hfdopen Hnull Hout H0 H1 H2.
  assert (E : maybe_close_fd_mask w st =
              (dup_and_close_stderr w >> discard_output w 1) st).
  { unfold maybe_close_fd_mask, getenv, close_stdout. run. rewrite Hs.
    apply Z.eqb_neq in Hb1, Hb0. rewrite Hb1, Hb0. cbn [negb when]. done. }
  rewrite E.
  destruct (dup_and_close_stderr_discards w st 2 s2 Hsan Hfdopen Hnull Hout H2 H0)
    as (Hres & Hrep & Hdup & Hnul).
  assert (Hkeep : keeps_descriptor 1 s1 (final (dup_and_close_stderr w st))).
  { apply dup_and_close_stderr_keeps; [lia |]. split; [exact H1 | by right]. }
  destruct Hkeep as [H1' _].
  rewrite (bind_Ret _ _ _ tt Hres). cbn [final res].
  set (st' := final (dup_and_close_stderr w st)) in *.
  assert (Hfree : 1 <> Z.of_nat (lowest_free (fds st'))).
  { intros Heq. rewrite Heq, fd_lookup_nat, lowest_free_is_free in H1'. done. }
  assert (Hn : Z.of_nat (lowest_free (fds st)) <> 1).
  { intros Heq. rewrite <- Heq, fd_lookup_nat, lowest_free_is_free in H1. done. }
  destruct (discard_output_sets w st' 1 Hnull ltac:(lia) Hfree) as [Hr Hset].
  pose proof (discard_output_frame w st' 1) as Hframe.
  split; [exact Hr |]. split; [exact Hset |].
  split; [by rewrite Hframe |].
  split; [by rewrite discard_output_report_fd |].
  by rewrite Hframe.
Qed.

Lemma close_fd_mask_both_bits_witness :
  environ (set_output_file (Some 2) (initial_state world_mask_3))
    !! "AFL_DRIVER_CLOSE_FD_MASK" = Some "3" /\
  Z.land (atoi "3") 2 <> 0 /\
  Z.land (atoi "3") 1 <> 0 /\
  fd_lookup (fds (set_output_file (Some 2) (initial_state world_mask_3))) 0 <> None /\
  fd_lookup
    (fds (final (maybe_close_fd_mask world_mask_3
                   (set_output_file (Some 2) (initial_state world_mask_3))))) 3
    = Some (Inherited 2).
Proof.
  assert (Hs : environ (set_output_file (Some 2) (initial_state world_mask_3))
                 !! "AFL_DRIVER_CLOSE_FD_MASK" = Some "3") by (vm_compute; reflexivity).
  assert (Hb1 : Z.land (atoi "3") 2 <> 0) by (vm_compute; discriminate).
  assert (Hb0 : Z.land (atoi "3") 1 <> 0) by (vm_compute; discriminate).
  assert (H0 : fd_lookup (fds (set_output_file (Some 2) (initial_state world_mask_3))) 0
               <> None) by (vm_compute; discriminate).
  split; [exact Hs |]. split; [exact Hb1 |]. split; [exact Hb0 |]. split; [exact H0 |].
  exact (proj2 (proj2 (proj2 (proj2
    (close_fd_mask_both_bits world_mask_3 _ "3" (Inherited 1) (Inherited 2)
       Hs Hb1 Hb0 eq_refl eq_refl eq_refl eq_refl H0 eq_refl eq_refl))))).
Defined.
